(** * AdaptSign: the video-adapted CLIP vision encoder of [modules/model_bk.py]

    A shallow embedding of the module definitions, the construction code,
    the forward pass and [build_model], with the properties the
    specification states about them.

    Conventions.
    - Tensors are a shape and the row-major list of their elements, as a
      contiguous torch tensor; [view], [permute], [cat], ... are written
      on that representation.
    - Arithmetic on tensor elements is over the real numbers: float
      rounding, dtype casts ([.to], [.type], [.half]) and devices are
      not modelled and the casts are the identity.
    - A module is a tree of named children, parameters and attributes,
      like [torch.nn.Module]; a parameter is an object with an identity,
      a shape and a [requires_grad] flag, and its elements live in a
      store indexed by that identity, so that in-place initialisers
      ([nn.init.constant_], ...) and [load_state_dict] are writes to the
      store.
    - Python exceptions are the [Raise] results of an error monad. *)

From Stdlib Require Import List Arith Lia ZArith Bool String Ascii.
From Stdlib Require Import DecimalString DecimalNat DecimalFacts Reals Lra.
From stdpp Require Import base option list strings gmap fin_maps.
Import ListNotations.

Set Implicit Arguments.
Set Warnings "-register-all,-level-tolerance,-notation-incompatible-prefix".
Unset Strict Implicit.
Local Open Scope string_scope.
Local Open Scope list_scope.
Local Open Scope nat_scope.

(** ** Exceptions and the error monad *)

Inductive exn : Type :=
| TypeError (msg : string)
| KeyError (key : string)
| IndexError
| AttributeError (name : string)
| AssertionError
| RuntimeError (msg : string)
| ZeroDivisionError
| ValueError (msg : string)
| UnboundLocalError (name : string).

Inductive result (A : Type) : Type :=
| Ok (a : A)
| Raise (e : exn).
Arguments Ok {A} a.
Arguments Raise {A} e.

Definition rbind {A B} (r : result A) (k : A -> result B) : result B :=
  match r with
  | Ok a => k a
  | Raise e => Raise e
  end.

Declare Scope py_scope.
Delimit Scope py_scope with py.
Notation "x <- e ;; k" := (rbind e (fun x => k))
  (at level 100, e at next level, right associativity) : py_scope.
Notation "e ;;; k" := (rbind e (fun _ => k))
  (at level 100, right associativity) : py_scope.
Local Open Scope py_scope.

Definition of_option {A} (e : exn) (o : option A) : result A :=
  match o with
  | Some a => Ok a
  | None => Raise e
  end.

Definition guard (b : bool) (e : exn) : result unit :=
  if b then Ok tt else Raise e.

Definition is_ok {A} (r : result A) : bool :=
  match r with Ok _ => true | Raise _ => false end.

(** ** Tensors *)

Module Tensor.

Definition numel (s : list nat) : nat := fold_right Nat.mul 1 s.

(** Row-major offset of a multi-index. *)
Fixpoint ravel (s idx : list nat) : nat :=
  match s, idx with
  | _ :: s', i :: idx' => i * numel s' + ravel s' idx'
  | _, _ => 0
  end.

(** All multi-indices of a shape, in row-major order. *)
Fixpoint indices (s : list nat) : list (list nat) :=
  match s with
  | [] => [[]]
  | n :: s' => flat_map (fun i => map (cons i) (indices s')) (seq 0 n)
  end.

Fixpoint in_range (s idx : list nat) : Prop :=
  match s, idx with
  | [], [] => True
  | n :: s', i :: idx' => i < n /\ in_range s' idx'
  | _, _ => False
  end.

Record tensor (A : Type) : Type := mkT { shape : list nat; data : list A }.
Arguments mkT {A} shape data.

Definition tabulate {A} (s : list nat) (f : list nat -> A) : tensor A :=
  mkT s (map f (indices s)).

Definition tget {A} (d : A) (t : tensor A) (idx : list nat) : A :=
  nth (ravel (shape t) idx) (data t) d.

Definition full {A} (s : list nat) (a : A) : tensor A := tabulate s (fun _ => a).

Definition wf {A} (t : tensor A) : Prop := length (data t) = numel (shape t).

Lemma length_indices s : length (indices s) = numel s.
Proof.
  induction s as [|n s IH]; [reflexivity|].
  cbn [indices numel fold_right]. fold (numel s).
  generalize 0 at 1. induction n as [|n IHn]; intros k; [reflexivity|].
  cbn [seq flat_map]. rewrite length_app, length_map, IH, IHn. reflexivity.
Qed.

Lemma ravel_lt s idx : in_range s idx -> ravel s idx < numel s.
Proof.
  revert idx; induction s as [|n s IH]; intros [|i idx] H; cbn in H; try contradiction.
  - cbn. lia.
  - destruct H as [Hi H]. specialize (IH _ H).
    cbn [ravel numel fold_right]. fold (numel s). nia.
Qed.

Lemma nth_flat_map_block {A B} (g : A -> list B) (m : nat) (l : list A) i r (a : A) (d : B) :
  (forall x, length (g x) = m) -> i < length l -> r < m ->
  nth (i * m + r) (flat_map g l) d = nth r (g (nth i l a)) d.
Proof.
  intros Hg. revert i. induction l as [|x l IH]; intros i Hi Hr; [cbn in Hi; lia|].
  cbn [flat_map]. destruct i as [|i].
  - cbn [Nat.mul Nat.add nth]. rewrite app_nth1; [reflexivity | rewrite Hg; exact Hr].
  - rewrite app_nth2 by (rewrite Hg; lia). rewrite Hg.
    replace (S i * m + r - m) with (i * m + r) by lia.
    cbn [nth]. apply IH; [cbn in Hi; lia | exact Hr].
Qed.

Lemma nth_indices s idx : in_range s idx -> nth (ravel s idx) (indices s) [] = idx.
Proof.
  revert idx; induction s as [|n s IH]; intros [|i idx] H; cbn in H; try contradiction.
  - reflexivity.
  - destruct H as [Hi H]. cbn [ravel indices].
    rewrite (@nth_flat_map_block _ _ _ (numel s) _ _ _ 0).
    + rewrite seq_nth by exact Hi. cbn [Nat.add].
      rewrite (nth_indep _ [] (i :: [])).
      * rewrite (map_nth (cons i)). f_equal. apply IH, H.
      * rewrite length_map, length_indices. apply ravel_lt, H.
    + intros x. rewrite length_map. apply length_indices.
    + rewrite length_seq. exact Hi.
    + apply ravel_lt, H.
Qed.

Lemma tget_tabulate {A} (d : A) s f idx :
  in_range s idx -> tget d (tabulate s f) idx = f idx.
Proof.
  intros H. unfold tget, tabulate. cbn [shape data].
  rewrite (nth_indep _ d (f [])).
  - rewrite (map_nth f). f_equal. apply nth_indices, H.
  - rewrite length_map, length_indices. apply ravel_lt, H.
Qed.

Lemma in_range_indices s idx : In idx (indices s) <-> in_range s idx.
Proof.
  revert idx; induction s as [|n s IH]; intros idx; cbn [indices in_range].
  - destruct idx; cbn; intuition (try discriminate; auto).
  - rewrite in_flat_map. split.
    + intros (i & Hi & Hin). apply in_map_iff in Hin as (idx' & <- & Hin).
      apply in_seq in Hi. split; [lia | apply IH, Hin].
    + destruct idx as [|i idx']; [tauto|]. intros [Hi H].
      exists i. split; [apply in_seq; lia | apply in_map, IH, H].
Qed.

Lemma tabulate_ext {A} s (f g : list nat -> A) :
  (forall idx, in_range s idx -> f idx = g idx) -> tabulate s f = tabulate s g.
Proof.
  intros H. unfold tabulate. f_equal. apply map_ext_in.
  intros idx Hin. apply H, in_range_indices, Hin.
Qed.

Lemma wf_tabulate {A} s (f : list nat -> A) : wf (tabulate s f).
Proof. unfold wf, tabulate; cbn. rewrite length_map. apply length_indices. Qed.

Lemma map_add_seq j a n : map (fun r => j + r) (seq a n) = seq (j + a) n.
Proof.
  revert a; induction n as [|n IH]; intros a; [reflexivity|].
  cbn [seq map]. rewrite IH. f_equal. f_equal. lia.
Qed.

Lemma map_ravel_indices s : map (ravel s) (indices s) = seq 0 (numel s).
Proof.
  induction s as [|n s IH]; [reflexivity|].
  cbn [indices numel fold_right]. fold (numel s).
  assert (H : forall a k, map (ravel (a :: s)) (flat_map (fun i => map (cons i) (indices s)) (seq k n))
                          = seq (k * numel s) (n * numel s)).
  { intros a. induction n as [|n IHn]; intros k; [reflexivity|].
    cbn [seq flat_map]. rewrite map_app, IHn, map_map.
    cbn [ravel]. rewrite <- (map_map (ravel s) (fun r => k * numel s + r)), IH.
    replace (S n * numel s) with (numel s + n * numel s) by lia.
    rewrite seq_app. f_equal.
    - rewrite map_add_seq. f_equal. lia.
    - f_equal. lia. }
  rewrite (H n 0). reflexivity.
Qed.

Lemma tabulate_tget {A} (d : A) (t : tensor A) :
  wf t -> tabulate (shape t) (tget d t) = t.
Proof.
  destruct t as [s l]. unfold wf, tabulate, tget; cbn [shape data]. intros Hwf.
  f_equal. rewrite <- (map_map (ravel s) (fun k => nth k l d)), map_ravel_indices, <- Hwf.
  clear Hwf. induction l as [|x l IH]; [reflexivity|].
  cbn [length seq map nth]. f_equal. rewrite <- seq_shift, map_map. exact IH.
Qed.

Fixpoint shape_eqb (a b : list nat) : bool :=
  match a, b with
  | [], [] => true
  | x :: a', y :: b' => (x =? y) && shape_eqb a' b'
  | _, _ => false
  end.

Lemma shape_eqb_eq a b : shape_eqb a b = true <-> a = b.
Proof.
  revert b; induction a as [|x a IH]; intros [|y b]; cbn; split; intros H;
    try discriminate; try reflexivity.
  - apply andb_true_iff in H as [H1 H2]. apply Nat.eqb_eq in H1. apply IH in H2. congruence.
  - injection H as -> ->. rewrite Nat.eqb_refl. cbn. apply IH. reflexivity.
Qed.

Lemma shape_eqb_refl a : shape_eqb a a = true.
Proof. apply shape_eqb_eq. reflexivity. Qed.

(** *** Shape-changing operations *)

(** [t.view(spec...)] and [t.reshape(spec...)]: one entry may be [-1]. *)
Definition infer_shape (n : nat) (spec : list Z) : result (list nat) :=
  if existsb (fun z => (z <? -1)%Z) spec
  then Raise (RuntimeError "invalid shape dimension")
  else
    let p := numel (map Z.to_nat (filter (fun z => negb (z =? -1)%Z) spec)) in
    match length (filter (fun z => (z =? -1)%Z) spec) with
    | 0 => if p =? n then Ok (map Z.to_nat spec)
           else Raise (RuntimeError "shape is invalid for input size")
    | 1 => if p =? 0 then Raise (RuntimeError "the unspecified dimension is ambiguous")
           else if n mod p =? 0
                then Ok (map (fun z => if (z =? -1)%Z then n / p else Z.to_nat z) spec)
                else Raise (RuntimeError "shape is invalid for input size")
    | _ => Raise (RuntimeError "only one dimension can be inferred")
    end.

Definition view {A} (t : tensor A) (spec : list Z) : result (tensor A) :=
  s <- infer_shape (numel (shape t)) spec ;;
  Ok (mkT s (data t)).

Definition reshape {A} := @view A.

Fixpoint index_of (a : nat) (l : list nat) : nat :=
  match l with
  | [] => 0
  | x :: l' => if x =? a then 0 else S (index_of a l')
  end.

Definition is_perm (dims : list nat) : bool :=
  forallb (fun a => existsb (Nat.eqb a) dims) (seq 0 (length dims)).

(** [t.permute(dims...)]: axis [j] of the result is axis [dims[j]] of [t]. *)
Definition permute {A} (d : A) (dims : list nat) (t : tensor A) : result (tensor A) :=
  guard ((length dims =? length (shape t)) && is_perm dims)
        (RuntimeError "permute: dims do not match the tensor") ;;;
  Ok (tabulate (map (fun a => nth a (shape t) 0) dims)
        (fun idx => tget d t (map (fun a => nth (index_of a dims) idx 0)
                                  (seq 0 (length dims))))).

Definition set_nth {A} (k : nat) (a : A) (l : list A) : list A :=
  firstn k l ++ a :: skipn (S k) l.

(** [torch.cat((a, b), dim)]. *)
Definition cat {A} (d : A) (dim : nat) (a b : tensor A) : result (tensor A) :=
  guard ((dim <? length (shape a))
         && shape_eqb (set_nth dim 0 (shape a)) (set_nth dim 0 (shape b)))
        (RuntimeError "cat: sizes of tensors must match except in the cat dimension") ;;;
  let na := nth dim (shape a) 0 in
  Ok (tabulate (set_nth dim (na + nth dim (shape b) 0) (shape a))
        (fun idx => let i := nth dim idx 0 in
                    if i <? na then tget d a idx
                    else tget d b (set_nth dim (i - na) idx))).

Definition remove_nth {A} (k : nat) (l : list A) : list A :=
  firstn k l ++ skipn (S k) l.

Definition insert_nth {A} (k : nat) (a : A) (l : list A) : list A :=
  firstn k l ++ a :: skipn k l.

(** [t[start:stop]] along axis [dim] (the other axes taken whole), with
    Python's clamping of the bounds. *)
Definition slice {A} (d : A) (dim start : nat) (stop : option nat) (t : tensor A)
  : result (tensor A) :=
  guard (dim <? length (shape t)) IndexError ;;;
  let n := nth dim (shape t) 0 in
  let lo := Nat.min start n in
  let hi := Nat.max lo (Nat.min (default n stop) n) in
  Ok (tabulate (set_nth dim (hi - lo) (shape t))
        (fun idx => tget d t (set_nth dim (lo + nth dim idx 0) idx))).

(** Integer indexing [t[:, ..., i, ...]] at axis [dim]: the axis disappears. *)
Definition select {A} (d : A) (dim i : nat) (t : tensor A) : result (tensor A) :=
  guard ((dim <? length (shape t)) && (i <? nth dim (shape t) 0)) IndexError ;;;
  Ok (tabulate (remove_nth dim (shape t)) (fun idx => tget d t (insert_nth dim i idx))).

(** [t.repeat(reps...)]. *)
Definition repeat_ {A} (d : A) (reps : list nat) (t : tensor A) : result (tensor A) :=
  guard (length (shape t) <=? length reps)
        (RuntimeError "repeat: fewer repeat dims than tensor dims") ;;;
  let sh := repeat 1 (length reps - length (shape t)) ++ shape t in
  Ok (tabulate (zip_with Nat.mul sh reps)
        (fun idx => tget d (mkT sh (data t)) (zip_with (fun i n => i mod n) idx sh))).

(** *** Broadcasting *)

Fixpoint bshape_rev (a b : list nat) : option (list nat) :=
  match a, b with
  | [], _ => Some b
  | _, [] => Some a
  | x :: a', y :: b' =>
      if x =? y then option_map (cons x) (bshape_rev a' b')
      else if x =? 1 then option_map (cons y) (bshape_rev a' b')
      else if y =? 1 then option_map (cons x) (bshape_rev a' b')
      else None
  end.

Definition broadcast_shapes (a b : list nat) : option (list nat) :=
  option_map (@rev nat) (bshape_rev (rev a) (rev b)).

(** The index of an operand of shape [s] read at index [idx] of the
    broadcast result. *)
Definition bidx (s idx : list nat) : list nat :=
  zip_with (fun n i => if n =? 1 then 0 else i) s (skipn (length idx - length s) idx).

Definition map2b {A} (d : A) (f : A -> A -> A) (a b : tensor A) : result (tensor A) :=
  s <- of_option (RuntimeError "shapes are not broadcastable")
                 (broadcast_shapes (shape a) (shape b)) ;;
  Ok (tabulate s (fun idx => f (tget d a (bidx (shape a) idx)) (tget d b (bidx (shape b) idx)))).

Definition tmap {A} (d : A) (f : A -> A) (t : tensor A) : tensor A :=
  tabulate (shape t) (fun idx => f (tget d t idx)).

Lemma bshape_rev_same a : bshape_rev a a = Some a.
Proof.
  induction a as [|x a IH]; [reflexivity|].
  cbn. rewrite Nat.eqb_refl, IH. reflexivity.
Qed.

Lemma broadcast_shapes_same a : broadcast_shapes a a = Some a.
Proof. unfold broadcast_shapes. rewrite bshape_rev_same. cbn. rewrite rev_involutive. reflexivity. Qed.

Lemma in_range_length s idx : in_range s idx -> length idx = length s.
Proof.
  revert idx; induction s as [|n s IH]; intros [|i idx] H; cbn in H; try contradiction.
  - reflexivity.
  - cbn. f_equal. apply IH, H.
Qed.

Lemma bidx_same s idx : in_range s idx -> bidx s idx = idx.
Proof.
  intros H. unfold bidx. rewrite (in_range_length H), Nat.sub_diag.
  change (skipn 0 idx) with idx.
  revert idx H; induction s as [|n s IH]; intros [|i idx] H; cbn in H; try contradiction.
  - reflexivity.
  - destruct H as [Hi H]. cbn. rewrite (IH _ H). f_equal.
    destruct (Nat.eqb_spec n 1); lia.
Qed.

Lemma map2b_same {A} (d : A) f a b :
  shape a = shape b ->
  map2b d f a b = Ok (tabulate (shape a) (fun idx => f (tget d a idx) (tget d b idx))).
Proof.
  intros E. unfold map2b. rewrite <- E, broadcast_shapes_same. cbn.
  f_equal. apply tabulate_ext. intros idx H. rewrite (bidx_same H). reflexivity.
Qed.

End Tensor.

(** ** Tensors of reals and the [torch] functions the module calls *)

Module RT.
Import Tensor.
Local Open Scope R_scope.

Abbreviation rtensor := (tensor R).

Definition rget (t : rtensor) (idx : list nat) : R := tget 0 t idx.
Notation "t .[ idx ]" := (rget t idx) (at level 1, format "t .[ idx ]").

Definition rsum (n : nat) (f : nat -> R) : R := fold_right Rplus 0 (map f (seq 0 n)).

Definition zeros (s : list nat) : rtensor := full s 0.
Definition tadd : rtensor -> rtensor -> result rtensor := map2b 0 Rplus.
Definition tmul : rtensor -> rtensor -> result rtensor := map2b 0 Rmult.

(** Element-wise operations with a Python scalar. *)
Definition tdiv_scalar (t : rtensor) (c : R) : rtensor := tmap 0 (fun v => v / c) t.
Definition tsub_scalar (t : rtensor) (c : R) : rtensor := tmap 0 (fun v => v - c) t.

Definition sigmoid (x : R) : R := / (1 + exp (- x)).
Definition tsigmoid (t : rtensor) : rtensor := tmap 0 sigmoid t.

Definition quick_gelu (t : rtensor) : rtensor :=
  tmap 0 (fun v => v * sigmoid (1702 / 1000 * v)) t.

Definition last_is (s : list nat) (n : nat) : bool :=
  match last s with Some m => m =? n | None => false end.

(** [F.linear(x, w, b)]: [x @ w.T + b] on the last axis; [linear_at] is
    the element of the result at [idx], for [i] input features. *)
Definition linear_at (i : nat) (x w b : rtensor) (idx : list nat) : R :=
  let e := List.last idx 0%nat in
  rsum i (fun j => x.[removelast idx ++ [j]] * w.[[e; j]]) + b.[[e]].

Definition linear (x w b : rtensor) : result rtensor :=
  match shape w with
  | [o; i] =>
      guard (last_is (shape x) i && shape_eqb (shape b) [o])
            (RuntimeError "linear: shapes cannot be multiplied") ;;;
      Ok (tabulate (removelast (shape x) ++ [o]) (linear_at i x w b))
  | _ => Raise (RuntimeError "linear: weight must be a matrix")
  end.

(** [F.layer_norm(x, (D,), w, b, eps)]: each vector along the last axis
    is normalised with its own mean and (biased) variance. *)
Definition layer_norm_at (D : nat) (eps : R) (x w b : rtensor) (idx : list nat) : R :=
  let row := fun j => x.[removelast idx ++ [j]] in
  let mu := rsum D row / INR D in
  let var := rsum D (fun j => (row j - mu) * (row j - mu)) / INR D in
  let e := List.last idx 0%nat in
  (x.[idx] - mu) / sqrt (var + eps) * w.[[e]] + b.[[e]].

Definition layer_norm (D : nat) (eps : R) (x w b : rtensor) : result rtensor :=
  guard (last_is (shape x) D && shape_eqb (shape w) [D] && shape_eqb (shape b) [D])
        (RuntimeError "layer_norm: normalized_shape does not match the input") ;;;
  Ok (tabulate (shape x) (layer_norm_at D eps x w b)).

(** [a @ b] for two matrices. *)
Definition matmul (a b : rtensor) : result rtensor :=
  match shape a, shape b with
  | [n; k], [k'; m] =>
      guard (k =? k')%nat (RuntimeError "mat1 and mat2 shapes cannot be multiplied") ;;;
      Ok (tabulate [n; m]
            (fun idx => rsum k (fun j => a.[[nth 0 idx 0%nat; j]] * b.[[j; nth 1 idx 0%nat]])))
  | _, _ => Raise (RuntimeError "matmul: only matrices are modelled")
  end.

(** [F.conv2d(x, w, stride=s)] without bias and padding. *)
Definition conv2d (s : nat) (x w : rtensor) : result rtensor :=
  match shape x, shape w with
  | [n; c; h; wd], [o; c'; kh; kw] =>
      guard ((c =? c') && (0 <? s) && (kh <=? h) && (kw <=? wd))%nat
            (RuntimeError "conv2d: input does not match the weight") ;;;
      Ok (tabulate [n; o; (h - kh) / s + 1; (wd - kw) / s + 1]%nat
            (fun idx =>
               let b := nth 0 idx 0%nat in let f := nth 1 idx 0%nat in
               let i := nth 2 idx 0%nat in let j := nth 3 idx 0%nat in
               rsum c (fun ch => rsum kh (fun a => rsum kw (fun bb =>
                 x.[[b; ch; i * s + a; j * s + bb]%nat] * w.[[f; ch; a; bb]])))))
  | _, _ => Raise (RuntimeError "conv2d: expected a batched 4-D input")
  end.

(** [nn.Unfold(kernel_size=(kh,kw), dilation=(dh,dw), stride=(sh,sw),
    padding=(ph,pw))] on a batched input [(N, C, H, W)]: the result is
    [(N, C*kh*kw, blocks)], row [c*kh*kw + i*kw + j] of block
    [oh*Wout + ow] holding the zero-padded input at
    [(c, oh*sh + i*dh - ph, ow*sw + j*dw - pw)]. *)
Definition unfold (kh kw dh dw sh sw ph pw : nat) (x : rtensor) : result rtensor :=
  match shape x with
  | [n; c; h; w] =>
      let eh := (dh * (kh - 1) + 1)%nat in
      let ew := (dw * (kw - 1) + 1)%nat in
      guard ((0 <? kh) && (0 <? kw) && (0 <? sh) && (0 <? sw)
             && (eh <=? h + 2 * ph) && (ew <=? w + 2 * pw))%nat
            (RuntimeError "unfold: the sliding blocks do not fit the input") ;;;
      let oh := ((h + 2 * ph - eh) / sh + 1)%nat in
      let ow := ((w + 2 * pw - ew) / sw + 1)%nat in
      Ok (tabulate [n; c * kh * kw; oh * ow]%nat
            (fun idx =>
               let b := nth 0 idx 0%nat in let r := nth 1 idx 0%nat in
               let l := nth 2 idx 0%nat in
               let i := ((l / ow) * sh + ((r mod (kh * kw)) / kw) * dh)%nat in
               let j := ((l mod ow) * sw + (r mod kw) * dw)%nat in
               if ((ph <=? i) && (i <? ph + h) && (pw <=? j) && (j <? pw + w))%nat
               then x.[[b; r / (kh * kw); i - ph; j - pw]%nat]
               else 0))
  | _ => Raise (RuntimeError "unfold: expected a batched 4-D input")
  end.

(** Size-1 axes of an [einsum] operand are broadcast. *)
Definition bdim (a b : nat) : option nat :=
  if (a =? b)%nat then Some a
  else if (a =? 1)%nat then Some b
  else if (b =? 1)%nat then Some a
  else None.

Definition bi (n i : nat) : nat := if (n =? 1)%nat then 0%nat else i.

(** [torch.einsum('lnd,ond->lon', x, u)]. *)
Definition einsum_lnd_ond_lon (x u : rtensor) : result rtensor :=
  match shape x, shape u with
  | [l; n; d], [o; n'; d'] =>
      nn <- of_option (RuntimeError "einsum: operands do not broadcast") (bdim n n') ;;
      dd <- of_option (RuntimeError "einsum: operands do not broadcast") (bdim d d') ;;
      Ok (tabulate [l; o; nn]
            (fun idx =>
               let a := nth 0 idx 0%nat in let b := nth 1 idx 0%nat in
               let c := nth 2 idx 0%nat in
               rsum dd (fun j => x.[[a; bi n c; bi d j]] * u.[[b; bi n' c; bi d' j]])))
  | _, _ => Raise (RuntimeError "einsum: subscripts do not match the operands")
  end.

(** [torch.einsum('lon,ond->lnd', a, u)]. *)
Definition einsum_lon_ond_lnd (a u : rtensor) : result rtensor :=
  match shape a, shape u with
  | [l; o; n], [o'; n'; d] =>
      oo <- of_option (RuntimeError "einsum: operands do not broadcast") (bdim o o') ;;
      nn <- of_option (RuntimeError "einsum: operands do not broadcast") (bdim n n') ;;
      Ok (tabulate [l; nn; d]
            (fun idx =>
               let i := nth 0 idx 0%nat in let b := nth 1 idx 0%nat in
               let c := nth 2 idx 0%nat in
               rsum oo (fun k => a.[[i; bi o k; bi n b]] * u.[[bi o' k; bi n' b; c]])))
  | _, _ => Raise (RuntimeError "einsum: subscripts do not match the operands")
  end.

(** [F.multi_head_attention_forward] on batched sequence-first inputs
    [q : (L, N, E)], [k, v : (S, N, E)] with a packed input projection,
    no dropout and an optional additive float mask [(L, S)]; the value
    returned with [need_weights=False]. [attention_at] is the element
    [(l, n, c)] of the result, for [Sk] key positions. *)
Definition attention_at (E H Sk : nat) (q k v in_w in_b out_w out_b : rtensor)
    (mask : option rtensor) (l n c : nat) : R :=
  let hd := (E / H)%nat in
  let proj := fun (t : rtensor) (off : nat) (s n c : nat) =>
    rsum E (fun j => t.[[s; n; j]] * in_w.[[off + c; j]%nat]) + in_b.[[off + c]%nat] in
  let qp := proj q 0%nat in
  let kp := proj k E in
  let vp := proj v (2 * E)%nat in
  let score := fun (h l s : nat) =>
    rsum hd (fun c => qp l n (h * hd + c)%nat * kp s n (h * hd + c)%nat) / sqrt (INR hd)
    + match mask with Some m => m.[[l; s]] | None => 0 end in
  let weight := fun (h l s : nat) =>
    exp (score h l s) / rsum Sk (fun s' => exp (score h l s')) in
  let ctx := fun (l c : nat) =>
    rsum Sk (fun s => weight (c / hd)%nat l s * vp s n c) in
  rsum E (fun j => ctx l j * out_w.[[c; j]]) + out_b.[[c]].

Definition multi_head_attention (E H : nat) (q k v in_w in_b out_w out_b : rtensor)
    (mask : option rtensor) : result rtensor :=
  match shape q, shape k with
  | [L; N; e], [Sk; N'; e'] =>
      guard ((e =? E) && (e' =? E) && (N =? N') && shape_eqb (shape v) (shape k)
             && shape_eqb (shape in_w) [3 * E; E] && shape_eqb (shape in_b) [3 * E]
             && shape_eqb (shape out_w) [E; E] && shape_eqb (shape out_b) [E]
             && match mask with Some m => shape_eqb (shape m) [L; Sk] | None => true end)%nat
            (RuntimeError "multi_head_attention_forward: shape mismatch") ;;;
      Ok (tabulate [L; N; E]
            (fun idx => attention_at E H Sk q k v in_w in_b out_w out_b mask
                          (nth 0 idx 0%nat) (nth 1 idx 0%nat) (nth 2 idx 0%nat)))
  | _, _ => Raise (RuntimeError "multi_head_attention_forward: expected batched 3-D inputs")
  end.

End RT.

(** ** Python strings *)

Module Str.

(** [s.startswith(p)]. *)
Fixpoint startswith (p s : string) : bool :=
  match p, s with
  | EmptyString, _ => true
  | String a p', String b s' => Ascii.eqb a b && startswith p' s'
  | String _ _, EmptyString => false
  end.

(** [p in s]. *)
Fixpoint contains (p s : string) : bool :=
  startswith p s ||
  match s with
  | EmptyString => false
  | String _ s' => contains p s'
  end.

(** [s.endswith(p)]. *)
Definition endswith (p s : string) : bool :=
  (String.length p <=? String.length s) &&
  String.eqb (String.substring (String.length s - String.length p) (String.length p) s) p.

(** [s.split(c)] for a one-character separator. *)
Fixpoint split_on (c : ascii) (s : string) : list string :=
  match s with
  | EmptyString => [EmptyString]
  | String a s' =>
      if Ascii.eqb a c then EmptyString :: split_on c s'
      else match split_on c s' with
           | w :: ws => String a w :: ws
           | [] => [String a EmptyString]
           end
  end.

(** [str(n)]. *)
Definition str (n : nat) : string := NilZero.string_of_uint (Nat.to_uint n).

Lemma append_cons a p s : String a p +:+ s = String a (p +:+ s).
Proof. reflexivity. Qed.

Lemma startswith_app p s : startswith p (p +:+ s) = true.
Proof.
  induction p as [|a p IH]; [reflexivity|].
  rewrite append_cons. cbn. rewrite Ascii.eqb_refl. exact IH.
Qed.

Lemma contains_here p s : contains p (p +:+ s) = true.
Proof. destruct (p +:+ s) eqn:E; cbn [contains]; rewrite <- E, startswith_app; reflexivity. Qed.

Lemma contains_app_r p a s : contains p s = true -> contains p (a +:+ s) = true.
Proof.
  intros H. induction a as [|c a IH]; [exact H|].
  rewrite append_cons. cbn [contains]. rewrite IH. apply orb_true_r.
Qed.

Lemma contains_mid p a s : contains p (a +:+ p +:+ s) = true.
Proof. apply contains_app_r, contains_here. Qed.



Lemma to_uint_nonnil n : Nat.to_uint n <> Decimal.Nil.
Proof.
  rewrite <- (Unsigned.of_to n) at 1. rewrite Unsigned.to_of. apply unorm_nonnil.
Qed.

Lemma str_inj i j : str i = str j -> i = j.
Proof.
  unfold str. intros H. apply (f_equal NilZero.uint_of_string) in H.
  rewrite !NilZero.usu in H by apply to_uint_nonnil.
  injection H as H. apply Unsigned.to_uint_inj, H.
Qed.

Lemma str_eqb i j : String.eqb (str i) (str j) = (i =? j).
Proof.
  destruct (Nat.eqb_spec i j) as [->|Hne]; [apply String.eqb_refl|].
  apply String.eqb_neq. intros H. apply Hne, str_inj, H.
Qed.

End Str.

(** ** Modules, parameters and the construction monad *)

Module NN.
Import Tensor RT.

(** The classes of the file and the [torch.nn] classes they instantiate. *)
Inductive class : Type :=
| Conv2d | BatchNorm2d | ReLU | AvgPool2d | Identity | Sequential | Linear
| NonDynamicallyQuantizableLinear | MultiheadAttention | Unfold
| Bottleneck | AttentionPool2d | ModifiedResNet | LayerNorm | QuickGELU
| ResidualAttentionBlock | Adapter | AggregationBlock | UnfoldTemporalWindows
| Correlation_Module | TemporalAggregationBlock | Transformer | VisionTransformer
| CLIP.

Definition class_eqb (a b : class) : bool :=
  match a, b with
  | Conv2d, Conv2d | BatchNorm2d, BatchNorm2d | ReLU, ReLU | AvgPool2d, AvgPool2d
  | Identity, Identity | Sequential, Sequential | Linear, Linear
  | NonDynamicallyQuantizableLinear, NonDynamicallyQuantizableLinear
  | MultiheadAttention, MultiheadAttention | Unfold, Unfold | Bottleneck, Bottleneck
  | AttentionPool2d, AttentionPool2d | ModifiedResNet, ModifiedResNet
  | LayerNorm, LayerNorm | QuickGELU, QuickGELU
  | ResidualAttentionBlock, ResidualAttentionBlock | Adapter, Adapter
  | AggregationBlock, AggregationBlock | UnfoldTemporalWindows, UnfoldTemporalWindows
  | Correlation_Module, Correlation_Module
  | TemporalAggregationBlock, TemporalAggregationBlock | Transformer, Transformer
  | VisionTransformer, VisionTransformer | CLIP, CLIP => true
  | _, _ => false
  end.

(** [isinstance(m, nn.Linear)]: [NonDynamicallyQuantizableLinear] is a
    subclass of [nn.Linear]. *)
Definition isinstance_Linear (c : class) : bool :=
  match c with
  | Linear | NonDynamicallyQuantizableLinear => true
  | _ => false
  end.

(** A parameter (or buffer) object: its identity in the store, its shape
    and its [requires_grad] flag. *)
Record param : Type := mkParam { p_id : nat; p_shape : list nat; p_requires_grad : bool }.

Inductive attr : Type :=
| AInt (n : nat)
| ABool (b : bool)
| AReal (r : R)
| APair (a b : nat)
| ANone
| ATensor (t : rtensor).

Inductive module : Type :=
| Mod (cls : class)
      (attrs : list (string * attr))
      (params : list (string * param))
      (buffers : list (string * param))
      (children : list (string * module)).

Definition m_class (m : module) : class := let 'Mod c _ _ _ _ := m in c.
Definition m_attrs (m : module) := let 'Mod _ a _ _ _ := m in a.
Definition m_params (m : module) := let 'Mod _ _ p _ _ := m in p.
Definition m_buffers (m : module) := let 'Mod _ _ _ b _ := m in b.
Definition m_children (m : module) := let 'Mod _ _ _ _ c := m in c.

Fixpoint assoc {A} (k : string) (l : list (string * A)) : option A :=
  match l with
  | [] => None
  | (k', a) :: l' => if String.eqb k' k then Some a else assoc k l'
  end.

Fixpoint set_assoc {A} (k : string) (a : A) (l : list (string * A)) : list (string * A) :=
  match l with
  | [] => [(k, a)]
  | (k', a') :: l' => if String.eqb k' k then (k, a) :: l' else (k', a') :: set_assoc k a l'
  end.

(** Attribute access [m.name]. *)
Definition child (m : module) (name : string) : result module :=
  of_option (AttributeError name) (assoc name (m_children m)).
Definition get_param (m : module) (name : string) : result param :=
  of_option (AttributeError name) (assoc name (m_params m)).
Definition get_attr (m : module) (name : string) : result attr :=
  of_option (AttributeError name) (assoc name (m_attrs m)).
Definition attr_nat (m : module) (name : string) : result nat :=
  a <- get_attr m name ;;
  match a with AInt n => Ok n | _ => Raise (TypeError name) end.
Definition attr_bool (m : module) (name : string) : result bool :=
  a <- get_attr m name ;;
  match a with ABool b => Ok b | _ => Raise (TypeError name) end.
Definition attr_real (m : module) (name : string) : result R :=
  a <- get_attr m name ;;
  match a with AReal r => Ok r | _ => Raise (TypeError name) end.

(** Attribute assignment [m.name = a] and replacement of a child. *)
Definition set_attr (m : module) (name : string) (a : attr) : module :=
  let 'Mod c at_ ps bs cs := m in Mod c (set_assoc name a at_) ps bs cs.
Definition set_child (m : module) (name : string) (c' : module) : module :=
  let 'Mod c at_ ps bs cs := m in Mod c at_ ps bs (set_assoc name c' cs).

(** [seq[i]] on an [nn.Sequential]: its children are named ["0"], ["1"], ... *)
Definition seq_item (m : module) (i : nat) : result module :=
  of_option IndexError (assoc (Str.str i) (m_children m)).
Definition seq_len (m : module) : nat := length (m_children m).

(** *** The store of parameter values *)

Definition store : Type := nat -> nat -> R.

Definition upd (st : store) (id : nat) (v : nat -> R) : store :=
  fun j => if (j =? id)%nat then v else st j.

(** The tensor held by a parameter. *)
Definition tensor_of (st : store) (p : param) : rtensor :=
  mkT (p_shape p) (map (st (p_id p)) (seq 0 (numel (p_shape p)))).

(** *** Construction: allocation of parameters and random initialisers

    The state of construction is the next free identity, the stream of
    values the random initialisers will draw (one sequence of reals per
    call of an initialiser) and the store. *)
Record cstate : Type := mkC { next_id : nat; gen : nat -> nat -> R; values : store }.

Definition ctor (A : Type) : Type := cstate -> result (A * cstate).

Definition cret {A} (a : A) : ctor A := fun s => Ok (a, s).
Definition cbind {A B} (c : ctor A) (k : A -> ctor B) : ctor B :=
  fun s => match c s with
           | Ok (a, s') => k a s'
           | Raise e => Raise e
           end.
Definition craise {A} (e : exn) : ctor A := fun _ => Raise e.

Declare Scope ctor_scope.
Delimit Scope ctor_scope with ctor.
Notation "x <~ e ;; k" := (cbind e (fun x => k))
  (at level 100, e at next level, right associativity) : ctor_scope.
Notation "e ~;; k" := (cbind e (fun _ => k))
  (at level 100, right associativity) : ctor_scope.
Local Open Scope ctor_scope.

Definition cguard (b : bool) (e : exn) : ctor unit :=
  if b then cret tt else craise e.

(** One call of a random initialiser ([torch.randn], [torch.rand],
    [kaiming_uniform_], [normal_], ...): the next sequence of the stream. *)
Definition draw : ctor (nat -> R) :=
  fun s => Ok (gen s 0%nat, mkC (next_id s) (fun k => gen s (S k)) (values s)).

(** A new tensor object holding [v]; [nn.Parameter(t)] has
    [requires_grad=True], a registered buffer has not. *)
Definition alloc (sh : list nat) (v : nat -> R) (rg : bool) : ctor param :=
  fun s => Ok (mkParam (next_id s) sh rg,
               mkC (S (next_id s)) (gen s) (upd (values s) (next_id s) v)).

(** In-place initialisers: [nn.init.constant_(p, c)], [nn.init.zeros_(p)],
    [nn.init.normal_(p, std)]. *)
Definition fill_ (p : param) (v : nat -> R) : ctor unit :=
  fun s => Ok (tt, mkC (next_id s) (gen s) (upd (values s) (p_id p) v)).
Definition constant_ (p : param) (c : R) : ctor unit := fill_ p (fun _ => c).
Definition zeros_ (p : param) : ctor unit := constant_ p 0%R.
Definition normal_ (p : param) (std : R) : ctor unit :=
  v <~ draw ;; fill_ p (fun i => (std * v i)%R).

Definition random_parameter (sh : list nat) (scale : R) : ctor param :=
  v <~ draw ;; alloc sh (fun i => (scale * v i)%R) true.
Definition constant_parameter (sh : list nat) (c : R) : ctor param :=
  alloc sh (fun _ => c) true.

(** Lift a Python attribute access into the construction monad. *)
Definition lift {A} (r : result A) : ctor A :=
  fun s => match r with Ok a => Ok (a, s) | Raise e => Raise e end.

Fixpoint cmapM {A B} (f : A -> ctor B) (l : list A) : ctor (list B) :=
  match l with
  | [] => cret []
  | a :: l' => b <~ f a ;; bs <~ cmapM f l' ;; cret (b :: bs)
  end.

Fixpoint cforM {A} (l : list A) (f : A -> ctor unit) : ctor unit :=
  match l with
  | [] => cret tt
  | a :: l' => f a ~;; cforM l' f
  end.

(** [nn.Sequential(ms...)]: children named by their position. *)
Definition sequential (ms : list module) : module :=
  Mod Sequential [] [] [] (imap (fun i m => (Str.str i, m)) ms).

(** [prefix + ('.' if prefix else '') + name]. *)
Definition sub_prefix (prefix name : string) : string :=
  match prefix with
  | EmptyString => name
  | _ => prefix +:+ "." +:+ name
  end.

(** [m.named_modules(prefix=prefix)]: the module, then the modules of
    each child in registration order. The trees built below share no
    module, so that the [memo] set of torch never skips one. *)
Fixpoint named_modules (prefix : string) (m : module) : list (string * module) :=
  (prefix, m) ::
  (fix go (cs : list (string * module)) : list (string * module) :=
     match cs with
     | [] => []
     | (name, c) :: cs' => named_modules (sub_prefix prefix name) c ++ go cs'
     end) (m_children m).

(** [m.named_parameters(prefix=prefix)]. *)
Fixpoint named_parameters (prefix : string) (m : module) : list (string * param) :=
  map (fun np => (sub_prefix prefix (fst np), snd np)) (m_params m) ++
  (fix go (cs : list (string * module)) : list (string * param) :=
     match cs with
     | [] => []
     | (name, c) :: cs' => named_parameters (sub_prefix prefix name) c ++ go cs'
     end) (m_children m).

(** The tensors of [m.state_dict()]: parameters and buffers. *)
Fixpoint named_tensors (prefix : string) (m : module) : list (string * param) :=
  map (fun np => (sub_prefix prefix (fst np), snd np)) (m_params m ++ m_buffers m) ++
  (fix go (cs : list (string * module)) : list (string * param) :=
     match cs with
     | [] => []
     | (name, c) :: cs' => named_tensors (sub_prefix prefix name) c ++ go cs'
     end) (m_children m).

(** *** [torch.nn] layers *)

Definition Linear_init (c : class) (i o : nat) : ctor module :=
  w <~ random_parameter [o; i] 1%R ;;
  b <~ random_parameter [o] 1%R ;;
  cret (Mod c [("in_features", AInt i); ("out_features", AInt o)]
          [("weight", w); ("bias", b)] [] []).

Definition nn_Linear : nat -> nat -> ctor module := Linear_init Linear.

Definition Conv2d_init (cin cout k stride padding : nat) : ctor module :=
  w <~ random_parameter [cout; cin; k; k] 1%R ;;
  cret (Mod Conv2d [("in_channels", AInt cin); ("out_channels", AInt cout);
                    ("kernel_size", AInt k); ("stride", AInt stride);
                    ("padding", AInt padding); ("bias", ANone)]
          [("weight", w)] [] []).

Definition BatchNorm2d_init (n : nat) : ctor module :=
  w <~ constant_parameter [n] 1%R ;;
  b <~ constant_parameter [n] 0%R ;;
  rm <~ alloc [n] (fun _ => 0%R) false ;;
  rv <~ alloc [n] (fun _ => 1%R) false ;;
  nb <~ alloc [] (fun _ => 0%R) false ;;
  cret (Mod BatchNorm2d [("num_features", AInt n)]
          [("weight", w); ("bias", b)]
          [("running_mean", rm); ("running_var", rv); ("num_batches_tracked", nb)] []).

Definition nn_ReLU : module := Mod ReLU [("inplace", ABool true)] [] [] [].
Definition nn_Identity : module := Mod Identity [] [] [] [].
Definition nn_AvgPool2d (k : nat) : module := Mod AvgPool2d [("kernel_size", AInt k)] [] [] [].

Definition nn_Unfold (kernel_size dilation stride padding : nat * nat) : module :=
  Mod Unfold [("kernel_size", APair (fst kernel_size) (snd kernel_size));
              ("dilation", APair (fst dilation) (snd dilation));
              ("padding", APair (fst padding) (snd padding));
              ("stride", APair (fst stride) (snd stride))] [] [] [].

(** [nn.MultiheadAttention(embed_dim, num_heads)]: [head_dim = embed_dim
    // num_heads] and the assertion that the heads divide the width; the
    parameters as [_reset_parameters] leaves them. *)
Definition MultiheadAttention_init (embed_dim num_heads : nat) : ctor module :=
  cguard (negb (num_heads =? 0)) ZeroDivisionError ~;;
  cguard ((embed_dim / num_heads) * num_heads =? embed_dim) AssertionError ~;;
  in_w <~ random_parameter [3 * embed_dim; embed_dim] 1%R ;;
  in_b <~ constant_parameter [3 * embed_dim] 0%R ;;
  out_proj <~ Linear_init NonDynamicallyQuantizableLinear embed_dim embed_dim ;;
  ob <~ lift (get_param out_proj "bias") ;;
  constant_ ob 0%R ~;;
  cret (Mod MultiheadAttention
          [("embed_dim", AInt embed_dim); ("num_heads", AInt num_heads);
           ("head_dim", AInt (embed_dim / num_heads))]
          [("in_proj_weight", in_w); ("in_proj_bias", in_b)] []
          [("out_proj", out_proj)]).

(** *** The classes of [model_bk.py] *)

Definition mask_attr (attn_mask : option rtensor) : attr :=
  match attn_mask with Some t => ATensor t | None => ANone end.

Definition Bottleneck_expansion : nat := 4.

Definition Bottleneck_init (inplanes planes stride : nat) : ctor module :=
  conv1 <~ Conv2d_init inplanes planes 1 1 0 ;;
  bn1 <~ BatchNorm2d_init planes ;;
  conv2 <~ Conv2d_init planes planes 3 1 1 ;;
  bn2 <~ BatchNorm2d_init planes ;;
  let avgpool := if 1 <? stride then nn_AvgPool2d stride else nn_Identity in
  conv3 <~ Conv2d_init planes (planes * Bottleneck_expansion) 1 1 0 ;;
  bn3 <~ BatchNorm2d_init (planes * Bottleneck_expansion) ;;
  let body := [("conv1", conv1); ("bn1", bn1); ("relu1", nn_ReLU);
               ("conv2", conv2); ("bn2", bn2); ("relu2", nn_ReLU);
               ("avgpool", avgpool);
               ("conv3", conv3); ("bn3", bn3); ("relu3", nn_ReLU)] in
  if (1 <? stride) || negb (inplanes =? planes * Bottleneck_expansion) then
    d0 <~ Conv2d_init inplanes (planes * Bottleneck_expansion) 1 1 0 ;;
    d1 <~ BatchNorm2d_init (planes * Bottleneck_expansion) ;;
    let downsample := Mod Sequential [] [] []
                          [("-1", nn_AvgPool2d stride); ("0", d0); ("1", d1)] in
    cret (Mod Bottleneck [("stride", AInt stride)] [] []
            (body ++ [("downsample", downsample)]))
  else
    cret (Mod Bottleneck [("downsample", ANone); ("stride", AInt stride)] [] [] body).

(** [output_dim or embed_dim]: a zero [output_dim] is falsy. *)
Definition AttentionPool2d_init (spacial_dim embed_dim num_heads output_dim : nat)
  : ctor module :=
  pe <~ random_parameter [spacial_dim ^ 2 + 1; embed_dim] (/ sqrt (INR embed_dim))%R ;;
  k_proj <~ nn_Linear embed_dim embed_dim ;;
  q_proj <~ nn_Linear embed_dim embed_dim ;;
  v_proj <~ nn_Linear embed_dim embed_dim ;;
  c_proj <~ nn_Linear embed_dim (if output_dim =? 0 then embed_dim else output_dim) ;;
  cret (Mod AttentionPool2d [("num_heads", AInt num_heads)]
          [("positional_embedding", pe)] []
          [("k_proj", k_proj); ("q_proj", q_proj); ("v_proj", v_proj); ("c_proj", c_proj)]).

(** [_make_layer(planes, blocks, stride)]; [self._inplanes] is passed in
    and its new value returned. *)
Definition _make_layer (_inplanes planes blocks stride : nat) : ctor (module * nat) :=
  b0 <~ Bottleneck_init _inplanes planes stride ;;
  let _inplanes := planes * Bottleneck_expansion in
  rest <~ cmapM (fun _ => Bottleneck_init _inplanes planes 1) (seq 1 (blocks - 1)) ;;
  cret (sequential (b0 :: rest), _inplanes).

Definition ModifiedResNet_init (layers : list nat)
    (output_dim heads input_resolution width : nat) : ctor module :=
  conv1 <~ Conv2d_init 3 (width / 2) 3 2 1 ;;
  bn1 <~ BatchNorm2d_init (width / 2) ;;
  conv2 <~ Conv2d_init (width / 2) (width / 2) 3 1 1 ;;
  bn2 <~ BatchNorm2d_init (width / 2) ;;
  conv3 <~ Conv2d_init (width / 2) width 3 1 1 ;;
  bn3 <~ BatchNorm2d_init width ;;
  let avgpool := nn_AvgPool2d 2 in
  let _inplanes := width in
  n0 <~ lift (of_option IndexError (nth_error layers 0)) ;;
  l1 <~ _make_layer _inplanes width n0 1 ;;
  n1 <~ lift (of_option IndexError (nth_error layers 1)) ;;
  l2 <~ _make_layer (snd l1) (width * 2) n1 2 ;;
  n2 <~ lift (of_option IndexError (nth_error layers 2)) ;;
  l3 <~ _make_layer (snd l2) (width * 4) n2 2 ;;
  n3 <~ lift (of_option IndexError (nth_error layers 3)) ;;
  l4 <~ _make_layer (snd l3) (width * 8) n3 2 ;;
  let embed_dim := width * 32 in
  attnpool <~ AttentionPool2d_init (input_resolution / 32) embed_dim heads output_dim ;;
  cret (Mod ModifiedResNet
          [("output_dim", AInt output_dim); ("input_resolution", AInt input_resolution);
           ("_inplanes", AInt (snd l4))] [] []
          [("conv1", conv1); ("bn1", bn1); ("relu1", nn_ReLU);
           ("conv2", conv2); ("bn2", bn2); ("relu2", nn_ReLU);
           ("conv3", conv3); ("bn3", bn3); ("relu3", nn_ReLU);
           ("avgpool", avgpool);
           ("layer1", fst l1); ("layer2", fst l2); ("layer3", fst l3); ("layer4", fst l4);
           ("attnpool", attnpool)]).

Definition LayerNorm_init (d : nat) : ctor module :=
  w <~ constant_parameter [d] 1%R ;;
  b <~ constant_parameter [d] 0%R ;;
  cret (Mod LayerNorm [("normalized_shape", AInt d); ("eps", AReal (/ 100000)%R)]
          [("weight", w); ("bias", b)] [] []).

Definition QuickGELU_init : module := Mod QuickGELU [] [] [] [].

(** [r = 1/4] and [int(d_model * r)]. *)
Definition Adapter_init (d_model : nat) (skip_connect : bool) : ctor module :=
  c_in <~ nn_Linear d_model (d_model / 4) ;;
  c_out <~ nn_Linear (d_model / 4) d_model ;;
  let mlp := Mod Sequential [] [] []
                 [("c_in", c_in); ("gelu", QuickGELU_init); ("c_out", c_out)] in
  cret (Mod Adapter [("skip_connect", ABool skip_connect)] [] [] [("mlp", mlp)]).

Definition prefix_length : nat := 8.

Definition ResidualAttentionBlock_init (d_model n_head : nat)
    (attn_mask : option rtensor) (checkpointing : bool) : ctor module :=
  attn <~ MultiheadAttention_init d_model n_head ;;
  ln_1 <~ LayerNorm_init d_model ;;
  c_fc <~ nn_Linear d_model (d_model * 4) ;;
  c_proj <~ nn_Linear (d_model * 4) d_model ;;
  let mlp := Mod Sequential [] [] []
                 [("c_fc", c_fc); ("gelu", QuickGELU_init); ("c_proj", c_proj)] in
  ln_2 <~ LayerNorm_init d_model ;;
  S_Adapter <~ Adapter_init d_model false ;;
  MLP_Adapter <~ Adapter_init d_model false ;;
  cguard (negb (d_model =? 0)) ZeroDivisionError ~;;
  let scale := (/ sqrt (INR d_model))%R in
  prefix_embedding_k <~ random_parameter [prefix_length; 1; d_model] scale ;;
  prefix_embedding_v <~ random_parameter [prefix_length; 1; d_model] scale ;;
  cret (Mod ResidualAttentionBlock
          [("attn_mask", mask_attr attn_mask); ("prefix_length", AInt prefix_length);
           ("checkpointing", ABool checkpointing)]
          [("prefix_embedding_k", prefix_embedding_k);
           ("prefix_embedding_v", prefix_embedding_v)] []
          [("attn", attn); ("ln_1", ln_1); ("mlp", mlp); ("ln_2", ln_2);
           ("S_Adapter", S_Adapter); ("MLP_Adapter", MLP_Adapter)]).

Definition AggregationBlock_init (d_model n_head : nat) (attn_mask : option rtensor)
  : ctor module :=
  attn <~ MultiheadAttention_init d_model n_head ;;
  ln_1 <~ LayerNorm_init d_model ;;
  c_fc <~ nn_Linear d_model (d_model * 1) ;;
  c_proj <~ nn_Linear (d_model * 1) d_model ;;
  let mlp := Mod Sequential [] [] []
                 [("c_fc", c_fc); ("gelu", QuickGELU_init); ("c_proj", c_proj)] in
  ln_2 <~ LayerNorm_init d_model ;;
  cret (Mod AggregationBlock [("attn_mask", mask_attr attn_mask)] [] []
          [("attn", attn); ("ln_1", ln_1); ("mlp", mlp); ("ln_2", ln_2)]).

Definition UnfoldTemporalWindows_init (window_size window_stride window_dilation : nat)
  : module :=
  let padding := (window_size + (window_size - 1) * (window_dilation - 1) - 1) / 2 in
  Mod UnfoldTemporalWindows
    [("window_size", AInt window_size); ("window_stride", AInt window_stride);
     ("window_dilation", AInt window_dilation); ("padding", AInt padding)] [] []
    [("unfold", nn_Unfold (window_size, 1) (window_dilation, 1) (window_stride, 1)
                          (padding, 0))].

Definition Correlation_Module_init : module := Mod Correlation_Module [] [] [] [].

Definition TemporalAggregationBlock_init (d_model n_head : nat)
    (attn_mask : option rtensor) : ctor module :=
  let attn := Correlation_Module_init in
  ln_1 <~ LayerNorm_init d_model ;;
  let upfold := UnfoldTemporalWindows_init 5 1 1 in
  cret (Mod TemporalAggregationBlock [("attn_mask", mask_attr attn_mask)] [] []
          [("attn", attn); ("ln_1", ln_1); ("upfold", upfold)]).

Definition Transformer_init (width layers heads : nat) (attn_mask : option rtensor)
  : ctor module :=
  resblocks <~ cmapM (fun i => ResidualAttentionBlock_init width heads attn_mask (0 <=? i))
                     (seq 0 layers) ;;
  query <~ random_parameter [1; 1; width] 1%R ;;
  aggblocks <~ cmapM (fun _ => AggregationBlock_init width heads attn_mask)
                     (seq 0 layers) ;;
  taggblocks <~ TemporalAggregationBlock_init width heads attn_mask ;;
  temporal_ada_weight <~ constant_parameter [1] 0%R ;;
  cret (Mod Transformer [("width", AInt width); ("layers", AInt layers)]
          [("query", query); ("temporal_ada_weight", temporal_ada_weight)] []
          [("resblocks", sequential resblocks); ("aggblocks", sequential aggblocks);
           ("taggblocks", taggblocks)]).

(** The two initialisation loops at the end of
    [VisionTransformer.__init__], for [tag] = ["S_Adapter"] and
    ["MLP_Adapter"]. *)
Definition zero_c_out (m : module) : ctor unit :=
  cforM (named_modules "" m) (fun nm =>
    let '(n2, m2) := nm in
    if Str.contains "c_out" n2 then
      if isinstance_Linear (m_class m2) then
        w <~ lift (get_param m2 "weight") ;;
        constant_ w 0%R ~;;
        b <~ lift (get_param m2 "bias") ;;
        constant_ b 0%R
      else cret tt
    else cret tt).

Definition init_adapters (tag : string) (transformer : module) : ctor unit :=
  cforM (named_modules "" transformer) (fun nm =>
    let '(n, m) := nm in
    if Str.contains tag n then zero_c_out m else cret tt).

Definition VisionTransformer_init
    (input_resolution patch_size width layers heads output_dim : nat) : ctor module :=
  conv1 <~ Conv2d_init 3 width patch_size patch_size 0 ;;
  cguard (negb (width =? 0)) ZeroDivisionError ~;;
  let scale := (/ sqrt (INR width))%R in
  class_embedding <~ random_parameter [width] scale ;;
  cguard (negb (patch_size =? 0)) ZeroDivisionError ~;;
  positional_embedding <~
    random_parameter [(input_resolution / patch_size) ^ 2 + 1; width] scale ;;
  ln_pre <~ LayerNorm_init width ;;
  transformer <~ Transformer_init width layers heads None ;;
  ln_post <~ LayerNorm_init width ;;
  ln_post_cls <~ LayerNorm_init width ;;
  proj <~ random_parameter [width; output_dim] scale ;;
  ada_weight <~ alloc [2] (fun _ => (1 / 2)%R) true ;;
  init_adapters "S_Adapter" transformer ~;;
  init_adapters "MLP_Adapter" transformer ~;;
  cret (Mod VisionTransformer
          [("input_resolution", AInt input_resolution); ("output_dim", AInt output_dim)]
          [("class_embedding", class_embedding);
           ("positional_embedding", positional_embedding);
           ("proj", proj); ("ada_weight", ada_weight)] []
          [("conv1", conv1); ("ln_pre", ln_pre); ("transformer", transformer);
           ("ln_post", ln_post); ("ln_post_cls", ln_post_cls)]).

(** [CLIP.initialize_parameters]. *)
Definition initialize_parameters (self : module) : ctor unit :=
  visual <~ lift (child self "visual") ;;
  if class_eqb (m_class visual) ModifiedResNet then
    attnpool <~ lift (child visual "attnpool") ;;
    c_proj <~ lift (child attnpool "c_proj") ;;
    in_features <~ lift (attr_nat c_proj "in_features") ;;
    cguard (negb (in_features =? 0)) ZeroDivisionError ~;;
    let std := (/ sqrt (INR in_features))%R in
    cforM ["q_proj"; "k_proj"; "v_proj"; "c_proj"] (fun name =>
      l <~ lift (child attnpool name) ;;
      w <~ lift (get_param l "weight") ;;
      normal_ w std) ~;;
    cforM ["layer1"; "layer2"; "layer3"; "layer4"] (fun name =>
      resnet_block <~ lift (child visual name) ;;
      cforM (named_parameters "" resnet_block) (fun np =>
        if Str.endswith "bn3.weight" (fst np) then zeros_ (snd np) else cret tt))
  else cret tt.

(** [CLIP.__init__]: [vision_layers] is a tuple of four block counts
    (left) or a number of transformer layers (right). *)
Definition CLIP_init (embed_dim image_resolution : nat) (vision_layers : list nat + nat)
    (vision_width : nat) (vision_patch_size : option nat) : ctor module :=
  visual <~
    match vision_layers with
    | inl layers =>
        let vision_heads := vision_width * 32 / 64 in
        ModifiedResNet_init layers embed_dim vision_heads image_resolution vision_width
    | inr layers =>
        let vision_heads := vision_width / 64 in
        patch_size <~ lift (of_option (TypeError "kernel_size is None") vision_patch_size) ;;
        VisionTransformer_init image_resolution patch_size vision_width layers
                               vision_heads embed_dim
    end ;;
  let self := Mod CLIP [] [] [] [("visual", visual)] in
  initialize_parameters self ~;;
  cret self.

End NN.

(** ** The forward pass *)

Module Forward.
Import Tensor RT NN.

(** [torch.utils.checkpoint.checkpoint(f, x)] recomputes [f] in the
    backward pass; its value is [f(x)]. *)
Definition checkpoint {A B} (f : A -> B) (a : A) : B := f a.

Definition attr_pair (m : module) (name : string) : result (nat * nat) :=
  a <- get_attr m name ;;
  match a with APair x y => Ok (x, y) | _ => Raise (TypeError name) end.

Definition read_mask (m : module) : result (option rtensor) :=
  a <- get_attr m "attn_mask" ;;
  match a with
  | ATensor t => Ok (Some t)
  | ANone => Ok None
  | _ => Raise (TypeError "attn_mask")
  end.

(** [self.attn_mask = self.attn_mask.to(dtype=x.dtype, device=x.device)
    if self.attn_mask is not None else None]: the cast is the identity
    on the values. The new [self] and the mask are returned. *)
Definition refresh_mask (self : module) : result (module * option rtensor) :=
  mask <- read_mask self ;;
  let mask' := match mask with Some t => Some t | None => None end in
  Ok (set_attr self "attn_mask" (mask_attr mask'), mask').

(** [t.shape[k]]. *)
Definition size (t : rtensor) (k : nat) : result nat :=
  of_option IndexError (nth_error (shape t) k).

(** *** Layers *)

Definition Linear_forward (st : store) (m : module) (x : rtensor) : result rtensor :=
  w <- get_param m "weight" ;;
  b <- get_param m "bias" ;;
  linear x (tensor_of st w) (tensor_of st b).

(** [LayerNorm.forward]: the casts to and from float32 around
    [nn.LayerNorm.forward]. *)
Definition LayerNorm_forward (st : store) (m : module) (x : rtensor) : result rtensor :=
  d <- attr_nat m "normalized_shape" ;;
  eps <- attr_real m "eps" ;;
  w <- get_param m "weight" ;;
  b <- get_param m "bias" ;;
  layer_norm d eps x (tensor_of st w) (tensor_of st b).

Definition QuickGELU_forward (x : rtensor) : rtensor := quick_gelu x.

(** A call of one of the layers that occur inside the [nn.Sequential]
    MLPs of the file. *)
Definition layer_forward (st : store) (m : module) (x : rtensor) : result rtensor :=
  match m_class m with
  | Linear | NonDynamicallyQuantizableLinear => Linear_forward st m x
  | QuickGELU => Ok (QuickGELU_forward x)
  | LayerNorm => LayerNorm_forward st m x
  | _ => Raise (TypeError "layer not callable inside an MLP")
  end.

(** [nn.Sequential.forward]: [for module in self: input = module(input)]. *)
Definition Sequential_forward (st : store) (m : module) (x : rtensor) : result rtensor :=
  fold_left (fun acc nc => x <- acc ;; layer_forward st (snd nc) x) (m_children m) (Ok x).

Definition Conv2d_forward (st : store) (m : module) (x : rtensor) : result rtensor :=
  stride <- attr_nat m "stride" ;;
  padding <- attr_nat m "padding" ;;
  guard (padding =? 0) (RuntimeError "conv2d: padding is not modelled") ;;;
  w <- get_param m "weight" ;;
  conv2d stride x (tensor_of st w).

Definition Unfold_forward (m : module) (x : rtensor) : result rtensor :=
  k <- attr_pair m "kernel_size" ;;
  d <- attr_pair m "dilation" ;;
  p <- attr_pair m "padding" ;;
  s <- attr_pair m "stride" ;;
  unfold (fst k) (snd k) (fst d) (snd d) (fst s) (snd s) (fst p) (snd p) x.

(** [nn.MultiheadAttention.forward(query, key, value, need_weights=False,
    attn_mask=mask)[0]]. *)
Definition MultiheadAttention_forward (st : store) (m : module)
    (query key value : rtensor) (mask : option rtensor) : result rtensor :=
  embed_dim <- attr_nat m "embed_dim" ;;
  num_heads <- attr_nat m "num_heads" ;;
  in_w <- get_param m "in_proj_weight" ;;
  in_b <- get_param m "in_proj_bias" ;;
  out_proj <- child m "out_proj" ;;
  out_w <- get_param out_proj "weight" ;;
  out_b <- get_param out_proj "bias" ;;
  multi_head_attention embed_dim num_heads query key value
    (tensor_of st in_w) (tensor_of st in_b) (tensor_of st out_w) (tensor_of st out_b) mask.

(** *** Adapter *)

Definition Adapter_forward (st : store) (self : module) (x : rtensor) : result rtensor :=
  skip_connect <- attr_bool self "skip_connect" ;;
  mlp <- child self "mlp" ;;
  if skip_connect then
    y <- Sequential_forward st mlp x ;; tadd y x
  else
    Sequential_forward st mlp x.

(** *** ResidualAttentionBlock *)

(** [torch.concat((x, prefix.repeat(1, x.shape[1], 1)), 0)] for the
    learned prefix [self.name]. *)
Definition with_prefix (st : store) (self : module) (name : string) (x : rtensor)
  : result rtensor :=
  p <- get_param self name ;;
  n <- size x 1 ;;
  r <- repeat_ 0%R [1; n; 1] (tensor_of st p) ;;
  cat 0%R 0 x r.

Definition ResidualAttentionBlock_attention (st : store) (self : module) (x : rtensor)
  : result (module * rtensor) :=
  sm <- refresh_mask self ;;
  let self := fst sm in
  attn <- child self "attn" ;;
  key <- with_prefix st self "prefix_embedding_k" x ;;
  value <- with_prefix st self "prefix_embedding_v" x ;;
  y <- MultiheadAttention_forward st attn x key value (snd sm) ;;
  Ok (self, y).

Definition ResidualAttentionBlock_forward (st : store) (self : module) (x : rtensor)
  : result (module * rtensor) :=
  checkpointing <- attr_bool self "checkpointing" ;;
  ln_1 <- child self "ln_1" ;;
  sa <- (if checkpointing
         then n <- checkpoint (LayerNorm_forward st ln_1) x ;;
              checkpoint (ResidualAttentionBlock_attention st self) n
         else n <- LayerNorm_forward st ln_1 x ;;
              ResidualAttentionBlock_attention st self n) ;;
  let self := fst sa in
  x1 <- tadd x (snd sa) ;;
  S_Adapter <- child self "S_Adapter" ;;
  s <- Adapter_forward st S_Adapter x ;;
  x <- tadd x1 s ;;
  checkpointing <- attr_bool self "checkpointing" ;;
  ln_2 <- child self "ln_2" ;;
  mlp <- child self "mlp" ;;
  ml <- (if checkpointing
         then n <- checkpoint (LayerNorm_forward st ln_2) x ;;
              checkpoint (Sequential_forward st mlp) n
         else n <- LayerNorm_forward st ln_2 x ;;
              Sequential_forward st mlp n) ;;
  x2 <- tadd x ml ;;
  MLP_Adapter <- child self "MLP_Adapter" ;;
  a <- Adapter_forward st MLP_Adapter x ;;
  x <- tadd x2 a ;;
  Ok (self, x).


(** *** AggregationBlock *)

Definition AggregationBlock_attention (st : store) (self : module) (x : rtensor)
  : result (module * rtensor) :=
  sm <- refresh_mask self ;;
  let self := fst sm in
  attn <- child self "attn" ;;
  q <- slice 0%R 0 0 (Some 1) x ;;
  key <- slice 0%R 0 1 None x ;;
  value <- slice 0%R 0 1 None x ;;
  y <- MultiheadAttention_forward st attn q key value (snd sm) ;;
  Ok (self, y).

Definition AggregationBlock_forward (st : store) (self : module) (x cls : rtensor)
  : result (module * rtensor) :=
  ln_1 <- child self "ln_1" ;;
  c <- cat 0%R 0 cls x ;;
  n <- LayerNorm_forward st ln_1 c ;;
  sa <- AggregationBlock_attention st self n ;;
  let self := fst sa in
  cls <- tadd cls (snd sa) ;;
  mlp <- child self "mlp" ;;
  ln_2 <- child self "ln_2" ;;
  n2 <- LayerNorm_forward st ln_2 cls ;;
  ml <- Sequential_forward st mlp n2 ;;
  cls <- tadd cls ml ;;
  Ok (self, cls).

(** *** The temporal correlation path *)

Definition UnfoldTemporalWindows_forward (self : module) (x : rtensor) (T : nat)
  : result rtensor :=
  match shape x with
  | [NT; C; P] =>
      x <- view x [(-1)%Z; Z.of_nat T; Z.of_nat C; Z.of_nat P] ;;
      x <- permute 0%R [0; 2; 1; 3] x ;;
      unfold_ <- child self "unfold" ;;
      x <- Unfold_forward unfold_ x ;;
      window_size <- attr_nat self "window_size" ;;
      x <- view x [(-1)%Z; Z.of_nat C; Z.of_nat window_size; Z.of_nat T; Z.of_nat P] ;;
      window_size <- attr_nat self "window_size" ;;
      x <- view x [(-1)%Z; Z.of_nat C; Z.of_nat window_size; Z.of_nat T; Z.of_nat P] ;;
      x <- permute 0%R [0; 3; 1; 2; 4] x ;;
      reshape x [Z.of_nat NT; Z.of_nat C; (-1)%Z]
  | _ => Raise (ValueError "not enough or too many values to unpack")
  end.

Definition Correlation_Module_forward (x upfold : rtensor) : result rtensor :=
  match shape x with
  | [L; N; D] =>
      e <- einsum_lnd_ond_lon x upfold ;;
      let affinities := tdiv_scalar e (sqrt (INR D)) in
      einsum_lon_ond_lnd (tsub_scalar (tsigmoid affinities) (1 / 2)%R) upfold
  | _ => Raise (ValueError "not enough or too many values to unpack")
  end.

Definition TemporalAggregationBlock_attention (st : store) (self : module)
    (x : rtensor) (T : nat) : result (module * rtensor) :=
  sm <- refresh_mask self ;;
  let self := fst sm in
  upfold <- child self "upfold" ;;
  xs <- slice 0%R 0 1 None x ;;
  xp <- permute 0%R [1; 2; 0] xs ;;
  u <- UnfoldTemporalWindows_forward upfold xp T ;;
  x_upfold <- permute 0%R [2; 0; 1] u ;;
  attn <- child self "attn" ;;
  q <- slice 0%R 0 0 (Some 1) x ;;
  y <- Correlation_Module_forward q x_upfold ;;
  Ok (self, y).

Definition TemporalAggregationBlock_forward (st : store) (self : module)
    (x : rtensor) (T : nat) : result (module * rtensor) :=
  ln_1 <- child self "ln_1" ;;
  n <- LayerNorm_forward st ln_1 x ;;
  TemporalAggregationBlock_attention st self n T.

(** *** Transformer *)

Fixpoint for_each {S} (l : list nat) (body : nat -> S -> result S) (s : S) : result S :=
  match l with
  | [] => Ok s
  | i :: l' => s' <- body i s ;; for_each l' body s'
  end.

(** The body of the loop [for i in range(len(self.resblocks))]; the
    state is [self], [x] and [query]. *)
Definition Transformer_step (st : store) (i : nat) (s : module * rtensor * rtensor)
  : result (module * rtensor * rtensor) :=
  let '(self, x, query) := s in
  resblocks <- child self "resblocks" ;;
  rb <- seq_item resblocks i ;;
  r <- ResidualAttentionBlock_forward st rb x ;;
  let self := set_child self "resblocks" (set_child resblocks (Str.str i) (fst r)) in
  let x := snd r in
  aggblocks <- child self "aggblocks" ;;
  ab <- seq_item aggblocks i ;;
  r <- checkpoint (AggregationBlock_forward st ab x) query ;;
  let self := set_child self "aggblocks" (set_child aggblocks (Str.str i) (fst r)) in
  Ok (self, x, snd r).

Definition Transformer_forward (st : store) (self : module) (x : rtensor) (T : nat)
  : result (module * (rtensor * rtensor)) :=
  match shape x with
  | [L; N; D] =>
      q <- get_param self "query" ;;
      query <- repeat_ 0%R [1; N; 1] (tensor_of st q) ;;
      resblocks <- child self "resblocks" ;;
      s <- for_each (seq 0 (seq_len resblocks)) (Transformer_step st) (self, x, query) ;;
      let '(self, x, query) := s in
      taggblocks <- child self "taggblocks" ;;
      r <- checkpoint (TemporalAggregationBlock_forward st taggblocks x) T ;;
      let self := set_child self "taggblocks" (fst r) in
      w <- get_param self "temporal_ada_weight" ;;
      t <- tmul (snd r) (tensor_of st w) ;;
      x <- tadd x t ;;
      Ok (self, (x, query))
  | _ => Raise (ValueError "not enough or too many values to unpack")
  end.

(** *** VisionTransformer *)

(** The statements of [VisionTransformer.forward] up to the call of the
    transformer: the token sequence, in LND layout. *)
Definition VisionTransformer_tokens (st : store) (self : module) (x : rtensor)
  : result rtensor :=
  conv1 <- child self "conv1" ;;
  x <- Conv2d_forward st conv1 x ;;
  s0 <- size x 0 ;;
  s1 <- size x 1 ;;
  x <- reshape x [Z.of_nat s0; Z.of_nat s1; (-1)%Z] ;;
  x <- permute 0%R [0; 2; 1] x ;;
  ce <- get_param self "class_embedding" ;;
  s0 <- size x 0 ;;
  sl <- of_option IndexError (last (shape x)) ;;
  c <- tadd (tensor_of st ce) (zeros [s0; 1; sl]) ;;
  x <- cat 0%R 1 c x ;;
  pe <- get_param self "positional_embedding" ;;
  x <- tadd x (tensor_of st pe) ;;
  ln_pre <- child self "ln_pre" ;;
  x <- LayerNorm_forward st ln_pre x ;;
  permute 0%R [1; 0; 2] x.

Definition VisionTransformer_forward (st : store) (self : module) (x : rtensor) (T : nat)
  : result (module * rtensor) :=
  x <- VisionTransformer_tokens st self x ;;
  transformer <- child self "transformer" ;;
  r <- Transformer_forward st transformer x T ;;
  let self := set_child self "transformer" (fst r) in
  let '(x, new_cls) := snd r in
  x <- permute 0%R [1; 0; 2] x ;;
  ln_post <- child self "ln_post" ;;
  x0 <- select 0%R 1 0 x ;;
  a <- LayerNorm_forward st ln_post x0 ;;
  ada_weight <- get_param self "ada_weight" ;;
  w0 <- select 0%R 0 0 (tensor_of st ada_weight) ;;
  a <- tmul a w0 ;;
  ln_post_cls <- child self "ln_post_cls" ;;
  nc <- permute 0%R [1; 0; 2] new_cls ;;
  nc <- LayerNorm_forward st ln_post_cls nc ;;
  b <- select 0%R 1 0 nc ;;
  ada_weight <- get_param self "ada_weight" ;;
  w1 <- select 0%R 0 1 (tensor_of st ada_weight) ;;
  b <- tmul b w1 ;;
  x <- tadd a b ;;
  match assoc "proj" (m_params self) with
  | Some proj => x <- matmul x (tensor_of st proj) ;; Ok (self, x)
  | None => Ok (self, x)
  end.

End Forward.

(** ** Facts about construction *)

Module Construction.
Import Tensor RT NN.
Local Open Scope ctor_scope.

(** An initial state of construction, for the examples. *)
Definition cstate0 : cstate := mkC 0 (fun _ _ => 0%R) (fun _ _ => 0%R).

(** [m] is a result of running the constructor [c]. *)
Definition built (c : ctor module) (m : module) : Prop :=
  exists s s', c s = Ok (m, s').

(** The classes and the parameters of a module tree all pass a test. *)
Fixpoint tree_all (Pc : class -> bool) (Pp : param -> bool) (m : module) : bool :=
  Pc (m_class m) && forallb (fun np => Pp (snd np)) (m_params m) &&
  (fix go (cs : list (string * module)) : bool :=
     match cs with
     | [] => true
     | (_, c) :: cs' => tree_all Pc Pp c && go cs'
     end) (m_children m).

Definition children_all (Pc : class -> bool) (Pp : param -> bool)
    (cs : list (string * module)) : bool :=
  forallb (fun nc => tree_all Pc Pp (snd nc)) cs.

(** The classes this file adds to the CLIP vision encoder. *)
Definition adaptation_class (c : class) : bool :=
  match c with
  | Adapter | AggregationBlock | TemporalAggregationBlock
  | UnfoldTemporalWindows | Correlation_Module => true
  | _ => false
  end.

Definition has_class (c : class) (m : module) : bool :=
  existsb (fun nm => class_eqb (m_class (snd nm)) c) (named_modules "" m).

Lemma cbind_inv {A B} (c : ctor A) (k : A -> ctor B) s b s' :
  cbind c k s = Ok (b, s') -> exists a s1, c s = Ok (a, s1) /\ k a s1 = Ok (b, s').
Proof.
  unfold cbind. destruct (c s) as [[a s1]|e]; [|discriminate].
  intros H. exists a, s1. split; [reflexivity | exact H].
Qed.

Lemma cmapM_inv {A B} (f : A -> ctor B) l s bs s' :
  cmapM f l s = Ok (bs, s') ->
  Forall2 (fun a b => exists si si', f a si = Ok (b, si')) l bs.
Proof.
  revert s bs s'; induction l as [|a l IH]; intros s bs s' H; cbn in H.
  - injection H as <- _. constructor.
  - apply cbind_inv in H as (b & s1 & Hb & H).
    apply cbind_inv in H as (bs' & s2 & Hbs & H).
    injection H as <- _. constructor; [eauto | eapply IH, Hbs].
Qed.

Lemma Forall2_length_eq {A B} (R : A -> B -> Prop) l l' :
  Forall2 R l l' -> length l = length l'.
Proof. induction 1; cbn; congruence. Qed.

Lemma Forall2_Forall_r {A B} (R : A -> B -> Prop) (P : B -> Prop) l l' :
  Forall2 R l l' -> (forall a b, R a b -> P b) -> Forall P l'.
Proof. induction 1; intros HP; constructor; eauto. Qed.

Lemma tree_all_unfold Pc Pp m :
  tree_all Pc Pp m =
  Pc (m_class m) && forallb (fun np => Pp (snd np)) (m_params m)
  && children_all Pc Pp (m_children m).
Proof.
  destruct m as [c a ps bs cs]. cbn [tree_all m_class m_params m_children].
  f_equal. unfold children_all. induction cs as [|[n x] cs IH]; [reflexivity|].
  cbn [forallb snd]. rewrite <- IH. reflexivity.
Qed.

Lemma children_all_imap Pc Pp (f : nat -> string) ms k :
  Forall (fun m => tree_all Pc Pp m = true) ms ->
  children_all Pc Pp (imap (fun i m => (f (k + i), m)) ms) = true.
Proof.
  unfold children_all. intros H. revert k.
  induction H as [|m ms Hm _ IH]; intros k; [reflexivity|].
  cbn [imap forallb snd]. rewrite Hm. cbn [andb].
  rewrite <- (IH (S k)). f_equal. apply imap_ext. intros i x _. cbn. do 2 f_equal. lia.
Qed.

Lemma tree_all_sequential Pc Pp ms :
  Pc Sequential = true ->
  Forall (fun m => tree_all Pc Pp m = true) ms ->
  tree_all Pc Pp (sequential ms) = true.
Proof.
  intros Hc H. rewrite tree_all_unfold. cbn [sequential m_class m_params m_children forallb].
  rewrite Hc. cbn [andb]. exact (@children_all_imap Pc Pp Str.str ms 0 H).
Qed.

Lemma module_ind' (P : module -> Prop) :
  (forall c a ps bs cs, Forall (fun nc => P (snd nc)) cs -> P (Mod c a ps bs cs)) ->
  forall m, P m.
Proof.
  intros H.
  refine (fix IH (m : module) : P m :=
            match m with
            | Mod c a ps bs cs =>
                H c a ps bs cs
                  ((fix go (cs : list (string * module)) : Forall (fun nc => P (snd nc)) cs :=
                      match cs with
                      | [] => @List.Forall_nil _ _
                      | nc :: cs' => @List.Forall_cons _ _ _ _ (IH (snd nc)) (go cs')
                      end) cs)
            end).
Qed.

Lemma named_modules_unfold prefix m :
  named_modules prefix m =
  (prefix, m) :: flat_map (fun nc => named_modules (sub_prefix prefix (fst nc)) (snd nc))
                          (m_children m).
Proof.
  destruct m as [c a ps bs cs]. cbn [named_modules m_children]. f_equal.
  induction cs as [|[n x] cs IH]; [reflexivity|].
  cbn [flat_map fst snd]. rewrite <- IH. reflexivity.
Qed.

Lemma named_parameters_unfold prefix m :
  named_parameters prefix m =
  map (fun np => (sub_prefix prefix (fst np), snd np)) (m_params m) ++
  flat_map (fun nc => named_parameters (sub_prefix prefix (fst nc)) (snd nc)) (m_children m).
Proof.
  destruct m as [c a ps bs cs]. cbn [named_parameters m_children m_params]. f_equal.
  induction cs as [|[n x] cs IH]; [reflexivity|].
  cbn [flat_map fst snd]. rewrite <- IH. reflexivity.
Qed.

Lemma tree_all_named_modules Pc Pp m :
  tree_all Pc Pp m = true ->
  forall prefix, Forall (fun nm => Pc (m_class (snd nm)) = true) (named_modules prefix m).
Proof.
  induction m as [c a ps bs cs IH] using module_ind'. intros H prefix.
  rewrite tree_all_unfold in H. cbn [m_class m_params m_children] in H.
  apply andb_true_iff in H as [H Hcs]. apply andb_true_iff in H as [Hc _].
  rewrite named_modules_unfold. constructor; [exact Hc|].
  cbn [m_children]. unfold children_all in Hcs. rewrite forallb_forall in Hcs.
  apply Forall_flat_map. rewrite List.Forall_forall in IH |- *.
  intros nc Hin. apply IH; [exact Hin | apply Hcs, Hin].
Qed.

Lemma tree_all_named_parameters Pc Pp m :
  tree_all Pc Pp m = true ->
  forall prefix, Forall (fun np => Pp (snd np) = true) (named_parameters prefix m).
Proof.
  induction m as [c a ps bs cs IH] using module_ind'. intros H prefix.
  rewrite tree_all_unfold in H. cbn [m_class m_params m_children] in H.
  apply andb_true_iff in H as [H Hcs]. apply andb_true_iff in H as [_ Hps].
  rewrite named_parameters_unfold. cbn [m_params m_children].
  apply Forall_app. split.
  - rewrite forallb_forall in Hps. rewrite List.Forall_forall. intros np Hin.
    apply in_map_iff in Hin as (np' & <- & Hin). cbn. apply Hps, Hin.
  - unfold children_all in Hcs. rewrite forallb_forall in Hcs.
    apply Forall_flat_map. rewrite List.Forall_forall in IH |- *.
    intros nc Hin. apply IH; [exact Hin | apply Hcs, Hin].
Qed.

(** *** Running a constructor symbolically *)

(** Conversion unfolds the constructors of the file before the monad's
    bind. *)
Strategy 100 [cbind].

Ltac ctor_unfold H :=
  cbv [ResidualAttentionBlock_init AggregationBlock_init TemporalAggregationBlock_init
       MultiheadAttention_init LayerNorm_init nn_Linear Adapter_init Linear_init
       Conv2d_init BatchNorm2d_init Bottleneck_init AttentionPool2d_init
       cbind cret random_parameter constant_parameter draw alloc cguard craise lift
       constant_ fill_ get_param assoc m_params of_option String.eqb Ascii.eqb Bool.eqb
       next_id gen values negb p_id] in H.

Lemma Ok_pair_inv {A B} (a a' : A) (b b' : B) :
  Ok (a, b) = Ok (a', b') -> a' = a /\ b' = b.
Proof. intros H. injection H as -> ->. auto. Qed.

Ltac ctor_inv H :=
  try match type of H with
      | _ ?s = _ => is_var s; destruct s as [? ? ?]
      end;
  repeat (ctor_unfold H;
          match type of H with
          | context [if ?b then _ else _] => destruct b eqn:?; try discriminate H
          end);
  ctor_unfold H; apply Ok_pair_inv in H; destruct H as [? ?]; subst;
  repeat match goal with
         | |- context [fst (Nat.divmod ?d 3 0 3)] =>
             change (fst (Nat.divmod d 3 0 3)) with (d / 4)
         | Hx : context [fst (Nat.divmod ?d 3 0 3)] |- _ =>
             change (fst (Nat.divmod d 3 0 3)) with (d / 4) in Hx
         end.

Ltac tree_all_step :=
  rewrite ?tree_all_unfold;
  cbv [m_class m_params m_children children_all forallb snd app].

(** *** Every constructor makes trainable parameters and, the adapted
    transformer apart, modules of the original classes only *)

Section TreeAll.
Variable Pc : class -> bool.
Variable Pp : param -> bool.
Hypothesis HPp : forall id sh, Pp (mkParam id sh true) = true.
Hypothesis HPc : forall c, adaptation_class c = false -> Pc c = true.

Ltac tree_all_solve :=
  repeat (progress tree_all_step);
  rewrite ?HPp; rewrite ?HPc by reflexivity; reflexivity.

Lemma Bottleneck_tree_all i p st s m s' :
  Bottleneck_init i p st s = Ok (m, s') -> tree_all Pc Pp m = true.
Proof. intros H. ctor_inv H; tree_all_solve. Qed.

Lemma _make_layer_tree_all i p b st s r s' :
  _make_layer i p b st s = Ok (r, s') -> tree_all Pc Pp (fst r) = true.
Proof.
  intros H. unfold _make_layer in H.
  apply cbind_inv in H as (b0 & s1 & H0 & H).
  apply cbind_inv in H as (rest & s2 & Hr & H).
  injection H as <- _. cbn [fst].
  apply tree_all_sequential; [apply HPc; reflexivity|].
  constructor; [eapply Bottleneck_tree_all, H0|].
  eapply Forall2_Forall_r; [eapply cmapM_inv, Hr|].
  cbn beta. intros _ x (si & si' & Hx). eapply Bottleneck_tree_all, Hx.
Qed.

Lemma lift_inv {A} (r : result A) s a s' : lift r s = Ok (a, s') -> r = Ok a /\ s' = s.
Proof. unfold lift. destruct r; [|discriminate]. intros H. injection H as -> ->. auto. Qed.

Lemma ModifiedResNet_tree_all layers o h r w s m s' :
  ModifiedResNet_init layers o h r w s = Ok (m, s') -> tree_all Pc Pp m = true.
Proof.
  intros H. unfold ModifiedResNet_init in H.
  apply cbind_inv in H as (conv1 & ? & Hconv1 & H).
  apply cbind_inv in H as (bn1 & ? & Hbn1 & H).
  apply cbind_inv in H as (conv2 & ? & Hconv2 & H).
  apply cbind_inv in H as (bn2 & ? & Hbn2 & H).
  apply cbind_inv in H as (conv3 & ? & Hconv3 & H).
  apply cbind_inv in H as (bn3 & ? & Hbn3 & H).
  apply cbind_inv in H as (n0 & ? & _ & H).
  apply cbind_inv in H as (l1 & ? & Hl1 & H).
  apply cbind_inv in H as (n1 & ? & _ & H).
  apply cbind_inv in H as (l2 & ? & Hl2 & H).
  apply cbind_inv in H as (n2 & ? & _ & H).
  apply cbind_inv in H as (l3 & ? & Hl3 & H).
  apply cbind_inv in H as (n3 & ? & _ & H).
  apply cbind_inv in H as (l4 & ? & Hl4 & H).
  apply cbind_inv in H as (attnpool & ? & Hap & H).
  injection H as <- _.
  apply _make_layer_tree_all in Hl1, Hl2, Hl3, Hl4.
  assert (tree_all Pc Pp conv1 = true /\ tree_all Pc Pp conv2 = true /\
          tree_all Pc Pp conv3 = true /\ tree_all Pc Pp bn1 = true /\
          tree_all Pc Pp bn2 = true /\ tree_all Pc Pp bn3 = true /\
          tree_all Pc Pp attnpool = true) as (A1 & A2 & A3 & A4 & A5 & A6 & A7).
  { repeat split;
      match goal with
      | Hx : _ = Ok (?x, _) |- tree_all _ _ ?x = true =>
          ctor_inv Hx; tree_all_solve
      end. }
  rewrite tree_all_unfold.
  cbv [m_class m_params m_children children_all forallb snd nn_ReLU nn_AvgPool2d].
  rewrite A1, A2, A3, A4, A5, A6, A7, Hl1, Hl2, Hl3, Hl4.
  tree_all_solve.
Qed.

End TreeAll.

(** *** The shape of a constructed transformer *)

Lemma Transformer_init_inv w l h mask s T s' :
  Transformer_init w l h mask s = Ok (T, s') ->
  exists rbs abs tg q taw,
    T = Mod Transformer [("width", AInt w); ("layers", AInt l)]
          [("query", mkParam q [1; 1; w] true);
           ("temporal_ada_weight", mkParam taw [1] true)] []
          [("resblocks", sequential rbs); ("aggblocks", sequential abs);
           ("taggblocks", tg)]
    /\ length rbs = l /\ length abs = l
    /\ Forall (built (ResidualAttentionBlock_init w h mask true)) rbs
    /\ Forall (built (AggregationBlock_init w h mask)) abs
    /\ built (TemporalAggregationBlock_init w h mask) tg
    /\ values s' taw = (fun _ => 0%R).
Proof.
  intros H. unfold Transformer_init in H.
  apply cbind_inv in H as (rbs & s1 & Hrbs & H).
  apply cbind_inv in H as (q & s2 & Hq & H).
  apply cbind_inv in H as (abs & s3 & Habs & H).
  apply cbind_inv in H as (tg & s4 & Htg & H).
  apply cbind_inv in H as (taw & s5 & Htaw & H).
  injection H as <- <-.
  apply cmapM_inv in Hrbs, Habs.
  destruct s1 as [n1 g1 v1]. cbv [random_parameter cbind draw alloc next_id gen values] in Hq.
  injection Hq as <- _.
  destruct s4 as [n4 g4 v4]. cbv [constant_parameter alloc next_id gen values] in Htaw.
  injection Htaw as <- <-.
  exists rbs, abs, tg, n1, n4. repeat split.
  - rewrite <- (Forall2_length_eq Hrbs). apply length_seq.
  - rewrite <- (Forall2_length_eq Habs). apply length_seq.
  - eapply Forall2_Forall_r; [exact Hrbs|]. intros i b (si & si' & Hb).
    exists si, si'. exact Hb.
  - eapply Forall2_Forall_r; [exact Habs|]. intros i b (si & si' & Hb).
    exists si, si'. exact Hb.
  - exists s3, (mkC n4 g4 v4). exact Htg.
  - cbn [values]. unfold upd. rewrite Nat.eqb_refl. reflexivity.
Qed.

Definition LayerNorm_at (d id : nat) : module :=
  Mod LayerNorm [("normalized_shape", AInt d); ("eps", AReal (/ 100000)%R)]
    [("weight", mkParam id [d] true); ("bias", mkParam (S id) [d] true)] [] [].

Definition Conv2d_at (cin cout k stride padding id : nat) : module :=
  Mod Conv2d [("in_channels", AInt cin); ("out_channels", AInt cout);
              ("kernel_size", AInt k); ("stride", AInt stride);
              ("padding", AInt padding); ("bias", ANone)]
    [("weight", mkParam id [cout; cin; k; k] true)] [] [].

Lemma VisionTransformer_init_inv res p w l h o s m s' :
  VisionTransformer_init res p w l h o s = Ok (m, s') ->
  exists i0 i1 i2 i3 i4 i5 i6 i7 T sT sT' s1 s2,
    m = Mod VisionTransformer
          [("input_resolution", AInt res); ("output_dim", AInt o)]
          [("class_embedding", mkParam i1 [w] true);
           ("positional_embedding", mkParam i2 [(res / p) ^ 2 + 1; w] true);
           ("proj", mkParam i6 [w; o] true); ("ada_weight", mkParam i7 [2] true)] []
          [("conv1", Conv2d_at 3 w p p 0 i0); ("ln_pre", LayerNorm_at w i3);
           ("transformer", T);
           ("ln_post", LayerNorm_at w i4); ("ln_post_cls", LayerNorm_at w i5)]
    /\ Transformer_init w l h None sT = Ok (T, sT')
    /\ init_adapters "S_Adapter" T s1 = Ok (tt, s2)
    /\ init_adapters "MLP_Adapter" T s2 = Ok (tt, s')
    /\ w <> 0 /\ p <> 0.
Proof.
  intros H. unfold VisionTransformer_init in H.
  apply cbind_inv in H as (conv1 & s1 & Hconv1 & H).
  apply cbind_inv in H as ([] & s2 & Hw & H).
  apply cbind_inv in H as (ce & s3 & Hce & H).
  apply cbind_inv in H as ([] & s4 & Hp & H).
  apply cbind_inv in H as (pe & s5 & Hpe & H).
  apply cbind_inv in H as (ln_pre & s6 & Hln_pre & H).
  apply cbind_inv in H as (T & s7 & HT & H).
  apply cbind_inv in H as (ln_post & s8 & Hln_post & H).
  apply cbind_inv in H as (ln_post_cls & s9 & Hln_post_cls & H).
  apply cbind_inv in H as (proj & s10 & Hproj & H).
  apply cbind_inv in H as (aw & s11 & Haw & H).
  apply cbind_inv in H as ([] & s12 & HS & H).
  apply cbind_inv in H as ([] & s13 & HM & H).
  injection H as <- <-.
  ctor_inv Hconv1.
  unfold cguard in Hw. destruct (w =? 0) eqn:Ew; [discriminate|]. ctor_inv Hw.
  ctor_inv Hce.
  unfold cguard in Hp. destruct (p =? 0) eqn:Ep; [discriminate|]. ctor_inv Hp.
  ctor_inv Hpe. ctor_inv Hln_pre. ctor_inv Hln_post. ctor_inv Hln_post_cls.
  ctor_inv Hproj. ctor_inv Haw.
  do 8 eexists. exists T. do 4 eexists.
  split; [reflexivity|]. split; [exact HT|]. split; [exact HS|]. split; [exact HM|].
  apply Nat.eqb_neq in Ew, Ep. auto.
Qed.

Lemma CLIP_init_inv e r vl w p s m s' :
  CLIP_init e r vl w p s = Ok (m, s') ->
  exists visual s1,
    m = Mod CLIP [] [] [] [("visual", visual)]
    /\ match vl with
       | inl layers => ModifiedResNet_init layers e (w * 32 / 64) r w s = Ok (visual, s1)
       | inr layers => exists patch,
           p = Some patch /\
           VisionTransformer_init r patch w layers (w / 64) e s = Ok (visual, s1)
       end
    /\ initialize_parameters m s1 = Ok (tt, s').
Proof.
  intros H. unfold CLIP_init in H.
  apply cbind_inv in H as (visual & s1 & Hv & H).
  apply cbind_inv in H as ([] & s2 & Hi & H).
  injection H as <- <-.
  exists visual, s1. split; [reflexivity|]. split; [|exact Hi].
  destruct vl as [layers|layers]; [exact Hv|].
  apply cbind_inv in Hv as (patch & s0 & Hp & Hv).
  apply lift_inv in Hp as [Hp ->].
  destruct p as [patch'|]; [|discriminate]. injection Hp as ->.
  exists patch. auto.
Qed.

(** *** Every parameter a constructor makes is trainable *)

Definition trainable (m : module) : bool := tree_all (fun _ => true) p_requires_grad m.

Ltac trainable_solve :=
  unfold trainable; repeat (progress tree_all_step); reflexivity.

Lemma ResidualAttentionBlock_trainable w h mask ck b :
  built (ResidualAttentionBlock_init w h mask ck) b -> trainable b = true.
Proof. intros (s & s' & H). ctor_inv H; trainable_solve. Qed.

Lemma AggregationBlock_trainable w h mask b :
  built (AggregationBlock_init w h mask) b -> trainable b = true.
Proof. intros (s & s' & H). ctor_inv H; trainable_solve. Qed.

Lemma TemporalAggregationBlock_trainable w h mask b :
  built (TemporalAggregationBlock_init w h mask) b -> trainable b = true.
Proof. intros (s & s' & H). ctor_inv H; trainable_solve. Qed.

Lemma Transformer_trainable w l h mask s T s' :
  Transformer_init w l h mask s = Ok (T, s') -> trainable T = true.
Proof.
  intros H. apply Transformer_init_inv in H
    as (rbs & abs & tg & q & taw & -> & _ & _ & Hrbs & Habs & Htg & _).
  assert (H1 : tree_all (fun _ => true) p_requires_grad (sequential rbs) = true).
  { apply tree_all_sequential; [reflexivity|].
    eapply List.Forall_impl; [|exact Hrbs]. intros b. apply ResidualAttentionBlock_trainable. }
  assert (H2 : tree_all (fun _ => true) p_requires_grad (sequential abs) = true).
  { apply tree_all_sequential; [reflexivity|].
    eapply List.Forall_impl; [|exact Habs]. intros b. apply AggregationBlock_trainable. }
  pose proof (TemporalAggregationBlock_trainable Htg) as H3.
  unfold trainable in *. rewrite tree_all_unfold.
  cbv [m_class m_params m_children children_all forallb snd].
  rewrite H1, H2, H3. reflexivity.
Qed.

Lemma VisionTransformer_trainable res p w l h o s m s' :
  VisionTransformer_init res p w l h o s = Ok (m, s') -> trainable m = true.
Proof.
  intros H. apply VisionTransformer_init_inv in H
    as (i0 & i1 & i2 & i3 & i4 & i5 & i6 & i7 & T & sT & sT' & s1 & s2
        & -> & HT & _).
  apply Transformer_trainable in HT.
  unfold trainable in *. rewrite tree_all_unfold.
  cbv [m_class m_params m_children children_all forallb snd Conv2d_at LayerNorm_at].
  rewrite HT. repeat (progress tree_all_step). reflexivity.
Qed.

Lemma CLIP_trainable e r vl w p s m s' :
  CLIP_init e r vl w p s = Ok (m, s') -> trainable m = true.
Proof.
  intros H. apply CLIP_init_inv in H as (visual & s1 & -> & Hv & _).
  assert (Hvis : trainable visual = true).
  { destruct vl as [layers|layers].
    - eapply (@ModifiedResNet_tree_all (fun _ => true) p_requires_grad); [| |exact Hv];
        reflexivity.
    - destruct Hv as (patch & _ & Hv). eapply VisionTransformer_trainable, Hv. }
  unfold trainable in *. rewrite tree_all_unfold.
  cbv [m_class m_params m_children children_all forallb snd]. rewrite Hvis. reflexivity.
Qed.

(** *** The original ResNet is built from the original classes only *)

Definition original_class (c : class) : bool := negb (adaptation_class c).

Lemma CLIP_resnet_original e r layers w p s m s' :
  CLIP_init e r (inl layers) w p s = Ok (m, s') ->
  tree_all original_class (fun _ => true) m = true.
Proof.
  intros H. apply CLIP_init_inv in H as (visual & s1 & -> & Hv & _).
  assert (Hvis : tree_all original_class (fun _ => true) visual = true).
  { eapply ModifiedResNet_tree_all; [| |exact Hv]; [reflexivity|].
    intros c Hc. unfold original_class. rewrite Hc. reflexivity. }
  rewrite tree_all_unfold.
  cbv [m_class m_params m_children children_all forallb snd].
  rewrite Hvis. reflexivity.
Qed.

Lemma original_has_no c m :
  adaptation_class c = true ->
  tree_all original_class (fun _ => true) m = true -> has_class c m = false.
Proof.
  intros Hc H. unfold has_class.
  apply (tree_all_named_modules (Pc:=original_class)) with (prefix := "") in H.
  induction H as [|nm l Hnm _ IH]; [reflexivity|].
  cbn [existsb]. rewrite IH, orb_false_r.
  unfold original_class in Hnm. apply negb_true_iff in Hnm.
  destruct (m_class (snd nm)), c; try reflexivity; discriminate.
Qed.

(** *** Membership in [named_modules] *)

Lemma named_modules_self p m : In (p, m) (named_modules p m).
Proof. rewrite named_modules_unfold. left. reflexivity. Qed.

Lemma named_modules_child p m n c x :
  In (n, c) (m_children m) ->
  In x (named_modules (sub_prefix p n) c) -> In x (named_modules p m).
Proof.
  intros Hc Hx. rewrite named_modules_unfold. right.
  apply in_flat_map. exists (n, c). auto.
Qed.

Lemma In_imap {A B} (f : nat -> A -> B) l i a k :
  nth_error l i = Some a -> In (f (k + i) a) (imap (fun j => f (k + j)) l).
Proof.
  revert i k; induction l as [|x l IH]; intros [|i] k H; cbn in H; try discriminate.
  - injection H as ->. left. reflexivity.
  - right. cbn [imap]. specialize (IH i (S k) H).
    replace (k + S i) with (S k + i) by lia.
    erewrite imap_ext; [exact IH|]. intros j y _. cbn. f_equal. lia.
Qed.

Lemma sequential_child ms i b :
  nth_error ms i = Some b -> In (Str.str i, b) (m_children (sequential ms)).
Proof. intros H. exact (@In_imap _ _ (fun j m => (Str.str j, m)) ms i b 0 H). Qed.

Ltac solve_In := cbn [m_children]; repeat (first [left; reflexivity | right]).

Ltac descend name := eapply (@named_modules_child _ _ name); [solve_In|].

Lemma CLIP_vit_has_adaptation e r l w p s m s' :
  CLIP_init e r (inr l) w p s = Ok (m, s') ->
  has_class TemporalAggregationBlock m = true
  /\ (1 <= l -> has_class Adapter m = true /\ has_class AggregationBlock m = true).
Proof.
  intros H. apply CLIP_init_inv in H as (visual & s1 & -> & (patch & _ & Hv) & _).
  apply VisionTransformer_init_inv in Hv
    as (i0 & i1 & i2 & i3 & i4 & i5 & i6 & i7 & T & sT & sT' & s2 & s3 & -> & HT & _).
  apply Transformer_init_inv in HT
    as (rbs & abs & tg & q & taw & -> & Hl1 & Hl2 & Hrbs & Habs & (st & st' & Htg) & _).
  split.
  - ctor_inv Htg. apply existsb_exists. eexists (_, _). split.
    + descend "visual". descend "transformer". descend "taggblocks".
      apply named_modules_self.
    + reflexivity.
  - intros Hl. destruct rbs as [|b0 rbs]; [cbn in Hl1; lia|].
    destruct abs as [|a0 abs]; [cbn in Hl2; lia|].
    apply Forall_inv in Hrbs as (sb & sb' & Hb). apply Forall_inv in Habs as (sa & sa' & Ha).
    ctor_inv Hb. ctor_inv Ha. split; apply existsb_exists; eexists (_, _); split.
    + descend "visual". descend "transformer". descend "resblocks".
      eapply named_modules_child; [apply (@sequential_child _ 0); reflexivity|].
      descend "S_Adapter". apply named_modules_self.
    + reflexivity.
    + descend "visual". descend "transformer". descend "aggblocks".
      eapply named_modules_child; [apply (@sequential_child _ 0); reflexivity|].
      apply named_modules_self.
    + reflexivity.
Qed.

(** *** The claims about the constructed module tree *)

(** C3 (amended). Of the two backbones only the VisionTransformer is
    extended: a CLIP built on it holds a TemporalAggregationBlock and,
    when it has at least one layer, Adapter layers and AggregationBlocks;
    a CLIP built on the ModifiedResNet holds no module of any of the
    three classes. *)
Theorem adaptation_only_in_the_vision_transformer e r vl w p s m s' :
  CLIP_init e r vl w p s = Ok (m, s') ->
  match vl with
  | inl _ =>
      has_class Adapter m = false /\ has_class AggregationBlock m = false
      /\ has_class TemporalAggregationBlock m = false
  | inr l =>
      has_class TemporalAggregationBlock m = true
      /\ (1 <= l -> has_class Adapter m = true /\ has_class AggregationBlock m = true)
  end.
Proof.
  intros H. destruct vl as [layers|l].
  - apply CLIP_resnet_original in H.
    repeat split; apply original_has_no; auto.
  - exact (CLIP_vit_has_adaptation H).
Qed.

Lemma adaptation_only_in_the_vision_transformer_witness :
  exists m s',
    CLIP_init 8 32 (inr 1) 64 (Some 16) cstate0 = Ok (m, s')
    /\ has_class TemporalAggregationBlock m = true
    /\ (1 <= 1 -> has_class Adapter m = true /\ has_class AggregationBlock m = true).
Proof.
  destruct (CLIP_init 8 32 (inr 1) 64 (Some 16) cstate0) as [[m s']|e] eqn:E.
  - exists m, s'. split; [reflexivity|].
    exact (@adaptation_only_in_the_vision_transformer 8 32 (inr 1) 64 (Some 16) cstate0 m s' E).
  - vm_compute in E. discriminate E.
Defined.

(** C3 as stated fails: the CLIP built on the ModifiedResNet with one
    block per stage is constructed, and holds no Adapter, no
    AggregationBlock and no TemporalAggregationBlock. *)
Lemma resnet_backbone_is_not_extended :
  match CLIP_init 8 32 (inl [1; 1; 1; 1]) 64 None cstate0 with
  | Ok (m, _) =>
      has_class Adapter m = false /\ has_class AggregationBlock m = false
      /\ has_class TemporalAggregationBlock m = false
  | Raise _ => False
  end.
Proof. vm_compute. repeat split. Qed.

(** The parameters the file adds to the CLIP weights, by their name in
    the model: those of the adapters, of the aggregation and
    temporal-aggregation blocks, and the learned prefixes, query and
    mixing weights. *)
Definition inserted_parameter (name : string) : bool :=
  Str.contains "S_Adapter" name || Str.contains "MLP_Adapter" name
  || Str.contains "aggblocks" name || Str.contains "prefix_embedding" name
  || Str.contains "transformer.query" name || Str.contains "ada_weight" name
  || Str.contains "ln_post_cls" name.

(** What C7 states: a trainable parameter is an inserted one. *)
Definition backbone_frozen (m : module) : bool :=
  forallb (fun np => implb (p_requires_grad (snd np)) (inserted_parameter (fst np)))
          (named_parameters "" m).

(** C7 (amended). After construction every parameter of the model, the
    original backbone weights included, has [requires_grad = True]: this
    module freezes nothing. *)
Theorem all_parameters_trainable e r vl w p s m s' :
  CLIP_init e r vl w p s = Ok (m, s') ->
  Forall (fun np => p_requires_grad (snd np) = true) (named_parameters "" m).
Proof.
  intros H. apply CLIP_trainable in H.
  exact (tree_all_named_parameters H "").
Qed.

Lemma all_parameters_trainable_witness :
  exists m s',
    CLIP_init 8 32 (inr 1) 64 (Some 16) cstate0 = Ok (m, s')
    /\ Forall (fun np => p_requires_grad (snd np) = true) (named_parameters "" m).
Proof.
  destruct (CLIP_init 8 32 (inr 1) 64 (Some 16) cstate0) as [[m s']|e] eqn:E.
  - exists m, s'. split; [reflexivity|].
    exact (@all_parameters_trainable 8 32 (inr 1) 64 (Some 16) cstate0 m s' E).
  - vm_compute in E. discriminate E.
Defined.

(** C7 as stated fails: in a constructed ViT-backed CLIP the patch
    convolution [visual.conv1.weight], a pretrained CLIP weight, is
    trainable, so the backbone is not frozen. *)
Lemma backbone_is_not_frozen :
  match CLIP_init 8 32 (inr 1) 64 (Some 16) cstate0 with
  | Ok (m, _) =>
      option_map p_requires_grad (assoc "visual.conv1.weight" (named_parameters "" m))
      = Some true
      /\ inserted_parameter "visual.conv1.weight" = false
      /\ backbone_frozen m = false
  | Raise _ => False
  end.
Proof. vm_compute. repeat split. Qed.

(** *** Indexing an [nn.Sequential] *)

Lemma assoc_imap {A} (ms : list A) i k :
  k <= i ->
  assoc (Str.str i) (imap (fun j m => (Str.str (k + j), m)) ms) = nth_error ms (i - k).
Proof.
  revert k; induction ms as [|x ms IH]; intros k Hk.
  - cbn. destruct (i - k); reflexivity.
  - cbn [imap assoc]. rewrite Nat.add_0_r, Str.str_eqb.
    destruct (Nat.eqb_spec k i) as [->|Hne].
    + rewrite Nat.sub_diag. reflexivity.
    + replace (i - k) with (S (i - S k)) by lia. cbn [nth_error].
      rewrite <- (IH (S k)) by lia. f_equal. apply imap_ext. intros j y _. cbn.
      do 2 f_equal. lia.
Qed.

Lemma seq_item_sequential ms i :
  seq_item (sequential ms) i = of_option IndexError (nth_error ms i).
Proof.
  unfold seq_item, sequential. cbn [m_children]. f_equal.
  rewrite <- (Nat.sub_0_r i) at 2. exact (@assoc_imap _ ms i 0 (Nat.le_0_l i)).
Qed.

(** *** The initialisation loops write zeros *)











(** The parameters [nn.init.constant_] is called on for a linear layer. *)
Definition linear_ids (m : module) : list nat :=
  match assoc "weight" (m_params m), assoc "bias" (m_params m) with
  | Some w, Some b => [p_id w; p_id b]
  | _, _ => []
  end.






(** The layer [mlp.c_out] of an adapter, and of the adapter [which] of a
    block. *)
Definition adapter_c_out (a : module) : result module :=
  (mlp <- child a "mlp" ;; child mlp "c_out")%py.

Definition c_out_of (b : module) (which : string) : result module :=
  (a <- child b which ;; adapter_c_out a)%py.

(** Block [i] of a vision transformer. *)
Definition resblock (vt : module) (i : nat) : result module :=
  (transformer <- child vt "transformer" ;;
   resblocks <- child transformer "resblocks" ;;
   seq_item resblocks i)%py.

Ltac lookup_cbv :=
  cbv [c_out_of adapter_c_out resblock child get_param get_attr attr_nat attr_bool attr_real
       assoc m_children m_params m_attrs of_option rbind
       String.eqb Ascii.eqb Bool.eqb].






End Construction.

(** ** Facts about the forward pass *)

Module ForwardFacts.
Import Tensor RT NN Forward Construction.

(** *** Sums and tensors of zeros *)

Lemma rsum_ext n f g : (forall j, j < n -> f j = g j) -> rsum n f = rsum n g.
Proof.
  intros H. unfold rsum. f_equal. apply map_ext_in.
  intros j Hj. apply in_seq in Hj. apply H. lia.
Qed.


Lemma rget_tabulate s f idx : in_range s idx -> (tabulate s f).[idx] = f idx.
Proof. apply tget_tabulate. Qed.


Lemma last_is_3 a b c : last_is [a; b; c] c = true.
Proof. unfold last_is. cbn. apply Nat.eqb_refl. Qed.

Lemma last_is_2 a b : last_is [a; b] b = true.
Proof. unfold last_is. cbn. apply Nat.eqb_refl. Qed.

(** *** The [torch] functions on well-shaped arguments *)

Lemma linear_ok x w b o i :
  shape w = [o; i] -> shape b = [o] -> last_is (shape x) i = true ->
  linear x w b = Ok (tabulate (removelast (shape x) ++ [o]) (linear_at i x w b)).
Proof.
  intros Hw Hb Hx. unfold linear. rewrite Hw, Hb, Hx, shape_eqb_refl. reflexivity.
Qed.

Lemma linear_raises x w b o i :
  shape w = [o; i] -> last_is (shape x) i = false ->
  linear x w b = Raise (RuntimeError "linear: shapes cannot be multiplied").
Proof. intros Hw Hx. unfold linear. rewrite Hw, Hx. reflexivity. Qed.

Lemma linear_inv x w b y o i :
  shape w = [o; i] -> linear x w b = Ok y -> last_is (shape x) i = true.
Proof.
  intros Hw H. unfold linear in H. rewrite Hw in H.
  destruct (last_is (shape x) i); [reflexivity | discriminate].
Qed.

Lemma layer_norm_ok D eps x w b :
  shape w = [D] -> shape b = [D] -> last_is (shape x) D = true ->
  layer_norm D eps x w b = Ok (tabulate (shape x) (layer_norm_at D eps x w b)).
Proof.
  intros Hw Hb Hx. unfold layer_norm. rewrite Hw, Hb, Hx, shape_eqb_refl. reflexivity.
Qed.

Lemma layer_norm_inv D eps x w b y :
  layer_norm D eps x w b = Ok y -> last_is (shape x) D = true.
Proof.
  unfold layer_norm. destruct (last_is (shape x) D); [reflexivity | discriminate].
Qed.

Lemma tadd_same a b :
  shape a = shape b ->
  tadd a b = Ok (tabulate (shape a) (fun idx => (a.[idx] + b.[idx])%R)).
Proof. apply map2b_same. Qed.


Lemma in_range_3 a b c idx :
  in_range [a; b; c] idx <->
  exists i j k, idx = [i; j; k] /\ i < a /\ j < b /\ k < c.
Proof.
  split.
  - destruct idx as [|i [|j [|k [|]]]]; cbn; try tauto.
    intros (Hi & Hj & Hk & _). exists i, j, k. auto.
  - intros (i & j & k & -> & Hi & Hj & Hk). cbn. auto.
Qed.

Lemma in_range_2 a b idx :
  in_range [a; b] idx <-> exists i j, idx = [i; j] /\ i < a /\ j < b.
Proof.
  split.
  - destruct idx as [|i [|j [|]]]; cbn; try tauto.
    intros (Hi & Hj & _). exists i, j. auto.
  - intros (i & j & -> & Hi & Hj). cbn. auto.
Qed.

Lemma attention_ok E H q k v in_w in_b out_w out_b L N Sk :
  shape q = [L; N; E] -> shape k = [Sk; N; E] -> shape v = [Sk; N; E] ->
  shape in_w = [3 * E; E] -> shape in_b = [3 * E] ->
  shape out_w = [E; E] -> shape out_b = [E] ->
  multi_head_attention E H q k v in_w in_b out_w out_b None =
  Ok (tabulate [L; N; E]
        (fun idx => attention_at E H Sk q k v in_w in_b out_w out_b None
                      (nth 0 idx 0) (nth 1 idx 0) (nth 2 idx 0))).
Proof.
  intros Hq Hk Hv H1 H2 H3 H4. unfold multi_head_attention.
  rewrite Hq, Hk, Hv, H1, H2, H3, H4, !Nat.eqb_refl, !shape_eqb_refl. reflexivity.
Qed.

Lemma attention_inv E H q k v in_w in_b out_w out_b mask y :
  multi_head_attention E H q k v in_w in_b out_w out_b mask = Ok y ->
  exists L N Sk, shape q = [L; N; E] /\ shape k = [Sk; N; E] /\ shape v = [Sk; N; E]
                 /\ shape y = [L; N; E].
Proof.
  unfold multi_head_attention.
  destruct (shape q) as [|L [|N [|e [|]]]]; try discriminate.
  destruct (shape k) as [|Sk [|N' [|e' [|]]]] eqn:Ek; try discriminate.
  destruct (e =? E) eqn:E1; [|discriminate].
  destruct (e' =? E) eqn:E2; [|discriminate].
  destruct (N =? N') eqn:E3; [|discriminate].
  destruct (shape_eqb (shape v) [Sk; N'; e']) eqn:E4; [|discriminate].
  apply Nat.eqb_eq in E1, E2, E3. apply shape_eqb_eq in E4. subst.
  destruct (_ && _); [|discriminate]. cbn [guard rbind].
  intros Hy. injection Hy as <-. exists L, N', Sk. auto.
Qed.

Lemma repeat_batch (t : rtensor) a d N :
  shape t = [a; 1; d] ->
  repeat_ 0%R [1; N; 1] t =
  Ok (tabulate [a; N; d] (fun idx => t.[[nth 0 idx 0; 0; nth 2 idx 0]])).
Proof.
  intros Ht. unfold repeat_. rewrite Ht. cbn [length Nat.leb guard rbind Nat.sub repeat app].
  cbn [zip_with]. rewrite !Nat.mul_1_r, Nat.mul_1_l. f_equal.
  apply tabulate_ext. intros idx Hidx.
  apply in_range_3 in Hidx as (i & j & k & -> & Hi & Hj & Hk).
  cbn [zip_with nth]. unfold rget, tget. cbn [shape data]. rewrite Ht.
  rewrite (Nat.mod_small i a Hi), Nat.mod_1_r, (Nat.mod_small k d Hk). reflexivity.
Qed.

Lemma cat0_3 (x y : rtensor) L M N d :
  shape x = [L; N; d] -> shape y = [M; N; d] ->
  cat 0%R 0 x y =
  Ok (tabulate [L + M; N; d]
        (fun idx => if nth 0 idx 0 <? L then x.[idx]
                    else y.[set_nth 0 (nth 0 idx 0 - L) idx])).
Proof.
  intros Hx Hy. unfold cat. rewrite Hx, Hy.
  cbn [length Nat.ltb Nat.leb set_nth firstn skipn app nth].
  rewrite shape_eqb_refl. reflexivity.
Qed.

Lemma slice_head (x : rtensor) L N d :
  shape x = [S L; N; d] ->
  slice 0%R 0 0 (Some 1) x = Ok (tabulate [1; N; d] (fun idx => x.[idx])).
Proof.
  intros Hx. unfold slice. rewrite Hx.
  cbn [length Nat.ltb Nat.leb guard rbind nth default Nat.min Nat.max Nat.sub set_nth
       firstn skipn app Nat.add].
  f_equal. apply tabulate_ext. intros idx Hidx.
  apply in_range_3 in Hidx as (i & j & k & -> & Hi & Hj & Hk).
  cbn [nth firstn skipn app]. reflexivity.
Qed.

Lemma slice_tail (x : rtensor) L N d :
  shape x = [S L; N; d] ->
  slice 0%R 0 1 None x =
  Ok (tabulate [L; N; d] (fun idx => x.[set_nth 0 (S (nth 0 idx 0)) idx])).
Proof.
  intros Hx. unfold slice. rewrite Hx.
  cbn [length Nat.ltb Nat.leb guard rbind nth default set_nth firstn skipn app].
  rewrite Nat.min_id.
  replace (Nat.max (Nat.min 1 (S L)) (S L) - Nat.min 1 (S L)) with L by lia.
  replace (Nat.min 1 (S L)) with 1 by lia. reflexivity.
Qed.

Lemma last_is_snoc l a : last_is (l ++ [a]) a = true.
Proof. unfold last_is. rewrite last_snoc. apply Nat.eqb_refl. Qed.

(** *** Evaluating attribute lookups on a constructed module *)

Ltac fwd_cbn :=
  cbn [Adapter_forward Sequential_forward layer_forward Linear_forward LayerNorm_forward
       QuickGELU_forward MultiheadAttention_forward Conv2d_forward Unfold_forward
       ResidualAttentionBlock_attention ResidualAttentionBlock_forward with_prefix
       AggregationBlock_attention AggregationBlock_forward
       TemporalAggregationBlock_attention TemporalAggregationBlock_forward
       checkpoint adapter_c_out c_out_of linear_ids
       child get_param get_attr attr_nat attr_bool attr_real attr_pair read_mask refresh_mask
       assoc set_assoc set_attr set_child m_children m_params m_attrs m_class
       of_option rbind guard fold_left String.eqb Ascii.eqb Bool.eqb fst snd mask_attr
       QuickGELU_init Correlation_Module_init UnfoldTemporalWindows_init nn_Unfold
       LayerNorm_at Conv2d_at p_shape p_id].


(** *** Adapter *)

Lemma Adapter_forward_ok d st a x :
  built (Adapter_init d false) a -> last_is (shape x) d = true ->
  exists F, Adapter_forward st a x = Ok (tabulate (removelast (shape x) ++ [d]) F).
Proof.
  intros (s & s' & H) Hx. ctor_inv H. fwd_cbn.
  erewrite linear_ok; [| reflexivity | reflexivity | exact Hx]. fwd_cbn.
  erewrite linear_ok; [| reflexivity | reflexivity | apply last_is_snoc].
  unfold QuickGELU_forward, quick_gelu, tmap. cbn [shape tabulate]. rewrite removelast_last.
  eexists. reflexivity.
Qed.

Lemma Adapter_forward_raises d st a x :
  built (Adapter_init d false) a -> last_is (shape x) d = false ->
  exists e, Adapter_forward st a x = Raise e.
Proof.
  intros (s & s' & H) Hx. ctor_inv H. fwd_cbn.
  erewrite linear_raises; [| reflexivity | exact Hx]. fwd_cbn.
  eexists. reflexivity.
Qed.


(** *** ResidualAttentionBlock *)

(** The keys (or values) of the self-attention: the tokens, then the
    learned prefix, the same for every batch element. *)
Definition prefixed (x prefix : rtensor) (L : nat) (idx : list nat) : R :=
  if nth 0 idx 0 <? L then x.[idx]
  else prefix.[[nth 0 idx 0 - L; 0; nth 2 idx 0]].

Lemma with_prefix_ok st self name p x L N d :
  get_param self name = Ok p -> p_shape p = [prefix_length; 1; d] ->
  shape x = [L; N; d] ->
  with_prefix st self name x =
  Ok (tabulate [L + prefix_length; N; d] (prefixed x (tensor_of st p) L)).
Proof.
  intros Hp Hs Hx. unfold with_prefix, size. rewrite Hp, Hx.
  cbn [rbind nth_error of_option].
  erewrite repeat_batch by (cbn [shape tensor_of]; exact Hs). cbn [rbind].
  erewrite cat0_3 by (exact Hx || reflexivity). f_equal.
  apply tabulate_ext. intros idx Hidx.
  apply in_range_3 in Hidx as (i & j & k & -> & Hi & Hj & Hk).
  unfold prefixed. cbn [nth set_nth firstn skipn app].
  destruct (Nat.ltb_spec i L) as [Hlt|Hge]; [reflexivity|].
  rewrite rget_tabulate; [reflexivity|]. cbn. lia.
Qed.

Ltac lk_cbn :=
  cbn [child get_param get_attr attr_nat attr_bool attr_real attr_pair read_mask refresh_mask
       assoc set_assoc set_attr set_child m_children m_params m_attrs m_class
       of_option rbind guard String.eqb Ascii.eqb Bool.eqb fst snd mask_attr checkpoint
       p_shape p_id].

Ltac lk_cbn_in H :=
  cbn [child get_param get_attr attr_nat attr_bool attr_real attr_pair read_mask refresh_mask
       assoc set_assoc set_attr set_child m_children m_params m_attrs m_class
       of_option rbind guard String.eqb Ascii.eqb Bool.eqb fst snd mask_attr checkpoint
       p_shape p_id] in H.


Lemma ResidualAttentionBlock_attention_ok w h ck st b x L N :
  built (ResidualAttentionBlock_init w h None ck) b -> shape x = [L; N; w] ->
  exists F, ResidualAttentionBlock_attention st b x = Ok (b, tabulate [L; N; w] F).
Proof.
  intros (s & s' & H) Hx. ctor_inv H.
  unfold ResidualAttentionBlock_attention. lk_cbn.
  erewrite !with_prefix_ok by (reflexivity || exact Hx). lk_cbn.
  unfold MultiheadAttention_forward. lk_cbn.
  erewrite attention_ok by (reflexivity || exact Hx). lk_cbn.
  eexists. reflexivity.
Qed.


Ltac adapter_built :=
  match goal with
  | |- built _ (Mod Adapter _ _ _
                  [(_, Mod Sequential _ _ _
                         ((_, Mod Linear _ ((_, mkParam ?n _ _) :: _) _ _) :: _))]) =>
      exists (mkC n (fun _ _ => 0%R) (fun _ _ => 0%R)); eexists;
      cbv [Adapter_init nn_Linear Linear_init cbind cret random_parameter draw alloc
           next_id gen values];
      reflexivity
  end.

Ltac shape_tac :=
  first [ reflexivity | assumption | apply last_is_3 | apply last_is_snoc
        | match goal with Hx : shape ?x = _ |- context [shape ?x] => rewrite Hx end;
          first [reflexivity | apply last_is_3] ].

Ltac fwd_step :=
  lk_cbn;
  first
    [ progress (cbn [Sequential_forward fold_left layer_forward m_class m_children])
    | progress (unfold LayerNorm_forward, Linear_forward, QuickGELU_forward, quick_gelu, tmap,
                QuickGELU_init)
    | erewrite layer_norm_ok by shape_tac
    | erewrite linear_ok by shape_tac
    | erewrite tadd_same by shape_tac
    | progress (cbn [shape tabulate removelast app tensor_of])
    | match goal with Hx : shape ?x = _ |- context [shape ?x] => rewrite Hx end ].

Lemma if_same {A} (b : bool) (u : A) : (if b then u else u) = u.
Proof. destruct b; reflexivity. Qed.

Ltac adapter_ok w :=
  match goal with
  | |- context [Adapter_forward ?st' ?a ?x'] =>
      let Hb := fresh in
      let F := fresh "F" in
      let E := fresh in
      assert (Hb : built (Adapter_init w false) a) by adapter_built;
      destruct (@Adapter_forward_ok w st' a x' Hb ltac:(shape_tac)) as [F E];
      rewrite E; clear E Hb
  end.

Lemma ResidualAttentionBlock_forward_ok w h ck st b x L N :
  built (ResidualAttentionBlock_init w h None ck) b -> shape x = [L; N; w] ->
  exists F, ResidualAttentionBlock_forward st b x = Ok (b, tabulate [L; N; w] F).
Proof.
  intros (s & s' & H) Hx.
  pose proof (ex_intro _ s (ex_intro _ s' H) : built _ b) as Hbuilt.
  ctor_inv H. unfold ResidualAttentionBlock_forward.
  lk_cbn. rewrite !if_same.
  repeat fwd_step.
  match goal with
  | |- context [ResidualAttentionBlock_attention ?st' ?b' ?n] =>
      destruct (@ResidualAttentionBlock_attention_ok w h ck st' b' n L N Hbuilt eq_refl)
        as [Fa Ea]; rewrite Ea; clear Ea
  end.
  repeat fwd_step. adapter_ok w.
  repeat (first [rewrite if_same | fwd_step]). adapter_ok w.
  repeat (first [rewrite if_same | fwd_step]).
  eexists. reflexivity.
Qed.








(** *** The keys and values of the self-attention *)

(** What C8 states of the call [self.attention(x)] of a block [b] with
    mask [mask] on [x] of shape [(L, N, w)]: the keys are [x] followed by
    [prefix_embedding_k], the values [x] followed by [prefix_embedding_v],
    each prefix repeated for every batch element, both of length
    [L + 8]; the query is [x]. *)
Definition attends_with_prefixes (st : store) (b : module) (mask : option rtensor)
    (x : rtensor) (L N w : nat) : Prop :=
  exists pk pv attn key value,
    get_param b "prefix_embedding_k" = Ok pk
    /\ get_param b "prefix_embedding_v" = Ok pv
    /\ child b "attn" = Ok attn
    /\ with_prefix st b "prefix_embedding_k" x = Ok key
    /\ with_prefix st b "prefix_embedding_v" x = Ok value
    /\ shape key = [L + 8; N; w] /\ shape value = [L + 8; N; w]
    /\ (forall l n j, l < L -> n < N -> j < w ->
          key.[[l; n; j]] = x.[[l; n; j]] /\ value.[[l; n; j]] = x.[[l; n; j]])
    /\ (forall i n j, i < 8 -> n < N -> j < w ->
          key.[[L + i; n; j]] = (tensor_of st pk).[[i; 0; j]]
          /\ value.[[L + i; n; j]] = (tensor_of st pv).[[i; 0; j]])
    /\ ResidualAttentionBlock_attention st b x
       = (y <- MultiheadAttention_forward st attn x key value mask ;; Ok (b, y))%py.

Lemma prefixed_tokens x p L N w l n j :
  l < L -> n < N -> j < w ->
  (tabulate [L + prefix_length; N; w] (prefixed x p L)).[[l; n; j]] = x.[[l; n; j]].
Proof.
  intros Hl Hn Hj. rewrite rget_tabulate by (cbn; unfold prefix_length; lia).
  unfold prefixed. cbn [nth]. destruct (Nat.ltb_spec l L); [reflexivity | lia].
Qed.

Lemma prefixed_prefix x p L N w i n j :
  i < prefix_length -> n < N -> j < w ->
  (tabulate [L + prefix_length; N; w] (prefixed x p L)).[[L + i; n; j]] = p.[[i; 0; j]].
Proof.
  intros Hl Hn Hj. rewrite rget_tabulate by (cbn; lia).
  unfold prefixed. cbn [nth]. destruct (Nat.ltb_spec (L + i) L); [lia|].
  replace (L + i - L) with i by lia. reflexivity.
Qed.

(** C8. In every ResidualAttentionBlock the self-attention over an input
    of shape [(L, N, d_model)] has the input as queries and, as keys and
    values, the input followed by the 8 learned prefix embeddings
    ([prefix_embedding_k] for the keys, [prefix_embedding_v] for the
    values) repeated over the batch: [L + 8] positions. *)
Theorem attention_keys_and_values_carry_the_prefixes w h mask ck st b x L N :
  built (ResidualAttentionBlock_init w h mask ck) b ->
  shape x = [L; N; w] ->
  attends_with_prefixes st b mask x L N w.
Proof.
  intros (s & s' & H) Hx. ctor_inv H. unfold attends_with_prefixes.
  do 5 eexists.
  split; [lk_cbn; reflexivity|]. split; [lk_cbn; reflexivity|].
  split; [lk_cbn; reflexivity|].
  split; [eapply with_prefix_ok; [lk_cbn; reflexivity | reflexivity | exact Hx]|].
  split; [eapply with_prefix_ok; [lk_cbn; reflexivity | reflexivity | exact Hx]|].
  split; [reflexivity|]. split; [reflexivity|].
  split; [intros l n j Hl Hn Hj; split; apply prefixed_tokens; assumption|].
  split; [intros i n j Hl Hn Hj; split; apply prefixed_prefix; assumption|].
  unfold ResidualAttentionBlock_attention.
  destruct mask as [m|]; lk_cbn;
    erewrite !with_prefix_ok by (reflexivity || exact Hx); lk_cbn; reflexivity.
Qed.

Lemma attention_keys_and_values_carry_the_prefixes_witness :
  exists b,
    built (ResidualAttentionBlock_init 4 1 None true) b
    /\ attends_with_prefixes (fun _ _ => 0%R) b None (zeros [2; 1; 4]) 2 1 4.
Proof.
  destruct (ResidualAttentionBlock_init 4 1 None true cstate0) as [[b s']|e] eqn:E;
    [|vm_compute in E; discriminate E].
  assert (Hb : built (ResidualAttentionBlock_init 4 1 None true) b)
    by (exists cstate0, s'; exact E).
  exists b. split; [exact Hb|].
  exact (@attention_keys_and_values_carry_the_prefixes 4 1 None true (fun _ _ => 0%R) b
           (zeros [2; 1; 4]) 2 1 Hb eq_refl).
Defined.

End ForwardFacts.

(** ** The aggregation of the query *)

Module Aggregation.
Import Tensor RT NN Forward Construction ForwardFacts.

(** *** Tensors that agree on one batch element *)



Section Frame.
Variables (N n : nat).
Hypothesis Hn : n < N.










End Frame.
(** *** AggregationBlock *)

Ltac agg_step :=
  first [ fwd_step
        | lk_cbn;
          first [ erewrite slice_head by shape_tac
                | erewrite slice_tail by shape_tac
                | progress (unfold MultiheadAttention_forward, AggregationBlock_attention)
                | erewrite attention_ok by shape_tac ] ].







Lemma AggregationBlock_forward_ok w h st ab x cls L N :
  built (AggregationBlock_init w h None) ab ->
  shape x = [L; N; w] -> shape cls = [1; N; w] ->
  exists F, AggregationBlock_forward st ab x cls = Ok (ab, tabulate [1; N; w] F).
Proof.
  intros (s & s' & H) Hx Hc. ctor_inv H.
  unfold AggregationBlock_forward. lk_cbn.
  rewrite (cat0_3 Hc Hx). lk_cbn.
  repeat agg_step. eexists. reflexivity.
Qed.

(** *** The loop of [Transformer.forward] *)

Definition Transformer_resblock (tr : module) (i : nat) : result module :=
  resblocks <- child tr "resblocks" ;; seq_item resblocks i.

Definition Transformer_aggblock (tr : module) (i : nat) : result module :=
  aggblocks <- child tr "aggblocks" ;; seq_item aggblocks i.

Lemma set_assoc_same {A} k (a : A) l : assoc k l = Some a -> set_assoc k a l = l.
Proof.
  induction l as [|[k' a'] l IH]; cbn [assoc set_assoc]; [discriminate|].
  destruct (String.eqb k' k) eqn:E.
  - intros [= ->]. apply String.eqb_eq in E. subst. reflexivity.
  - intros H. rewrite (IH H). reflexivity.
Qed.

Lemma set_item_same ms i m :
  nth_error ms i = Some m -> set_child (sequential ms) (Str.str i) m = sequential ms.
Proof.
  intros H. unfold sequential, set_child. f_equal. apply set_assoc_same.
  pose proof (@assoc_imap _ ms i 0 (Nat.le_0_l i)) as E. rewrite Nat.sub_0_r in E.
  cbn [m_children]. cbn [Nat.add] in E. rewrite E. exact H.
Qed.

Lemma Transformer_step_ok w l h st tr i x q L N :
  built (Transformer_init w l h None) tr ->
  i < l -> shape x = [L; N; w] -> shape q = [1; N; w] ->
  exists rb ab x' q',
    Transformer_resblock tr i = Ok rb
    /\ built (ResidualAttentionBlock_init w h None true) rb
    /\ Transformer_aggblock tr i = Ok ab
    /\ built (AggregationBlock_init w h None) ab
    /\ ResidualAttentionBlock_forward st rb x = Ok (rb, x')
    /\ shape x' = [L; N; w]
    /\ AggregationBlock_forward st ab x' q = Ok (ab, q')
    /\ shape q' = [1; N; w]
    /\ Transformer_step st i (tr, x, q) = Ok (tr, x', q').
Proof.
  intros (s & s' & H) Hi Hx Hq.
  apply Transformer_init_inv in H
    as (rbs & abs & tg & qp & taw & -> & Hl1 & Hl2 & Hrbs & Habs & _).
  destruct (nth_error rbs i) as [rb|] eqn:Erb; [|apply nth_error_None in Erb; lia].
  destruct (nth_error abs i) as [ab|] eqn:Eab; [|apply nth_error_None in Eab; lia].
  assert (Hrb : built (ResidualAttentionBlock_init w h None true) rb)
    by (rewrite List.Forall_forall in Hrbs; eapply Hrbs, nth_error_In, Erb).
  assert (Hab : built (AggregationBlock_init w h None) ab)
    by (rewrite List.Forall_forall in Habs; eapply Habs, nth_error_In, Eab).
  destruct (@ResidualAttentionBlock_forward_ok w h true st rb x L N Hrb Hx) as [Fx Ex].
  destruct (@AggregationBlock_forward_ok w h st ab (tabulate [L; N; w] Fx) q L N Hab eq_refl Hq)
    as [Fq Eq].
  exists rb, ab, (tabulate [L; N; w] Fx), (tabulate [1; N; w] Fq).
  unfold Transformer_resblock, Transformer_aggblock, Transformer_step. lk_cbn.
  rewrite !seq_item_sequential, Erb, Eab. lk_cbn. rewrite Ex. lk_cbn.
  rewrite (set_item_same Erb). lk_cbn.
  unfold checkpoint. rewrite Eq. lk_cbn. rewrite (set_item_same Eab).
  repeat split; auto.
Qed.

Lemma Transformer_loop_ok w l h st tr :
  built (Transformer_init w l h None) tr ->
  forall c a x q L N,
    a + c <= l -> shape x = [L; N; w] -> shape q = [1; N; w] ->
    exists x' q',
      for_each (seq a c) (Transformer_step st) (tr, x, q) = Ok (tr, x', q')
      /\ shape x' = [L; N; w] /\ shape q' = [1; N; w].
Proof.
  intros Hb c. induction c as [|c IH]; intros a x q L N Ha Hx Hq.
  - exists x, q. auto.
  - destruct (@Transformer_step_ok w l h st tr a x q L N Hb ltac:(lia) Hx Hq)
      as (rb & ab & x1 & q1 & _ & _ & _ & _ & _ & Hx1 & _ & Hq1 & E).
    destruct (IH (S a) x1 q1 L N ltac:(lia) Hx1 Hq1) as (x' & q' & E' & Hx' & Hq').
    exists x', q'. cbn [seq for_each]. rewrite E. cbn [rbind]. auto.
Qed.

Lemma seq_len_sequential ms : seq_len (sequential ms) = length ms.
Proof. unfold seq_len, sequential. cbn [m_children]. apply length_imap. Qed.


(** The learned query is one token; it is repeated for every batch
    element, updated by the loop over the layers, and returned. *)
Lemma Transformer_forward_query w l h st tr x L N :
  built (Transformer_init w l h None) tr -> shape x = [L; N; w] ->
  exists qp q0 xl ql,
    get_param tr "query" = Ok qp /\ p_shape qp = [1; 1; w]
    /\ repeat_ 0%R [1; N; 1] (tensor_of st qp) = Ok q0
    /\ for_each (seq 0 l) (Transformer_step st) (tr, x, q0) = Ok (tr, xl, ql)
    /\ shape xl = [L; N; w] /\ shape ql = [1; N; w]
    /\ forall T r, Transformer_forward st tr x T = Ok r -> snd (snd r) = ql.
Proof.
  intros Hb Hx. pose proof Hb as (s & s' & H).
  apply Transformer_init_inv in H
    as (rbs & abs & tg & qp & taw & -> & Hl1 & Hl2 & Hrbs & Habs & _).
  set (q0 := tabulate [1; N; w]
               (fun idx => (tensor_of st (mkParam qp [1; 1; w] true)).[[nth 0 idx 0; 0; nth 2 idx 0]])).
  destruct (@Transformer_loop_ok w l h st _ Hb l 0 x q0 L N (Nat.le_refl _) Hx eq_refl)
    as (xl & ql & E & Hxl & Hql).
  exists (mkParam qp [1; 1; w] true), q0, xl, ql.
  split; [reflexivity|]. split; [reflexivity|].
  split; [apply repeat_batch; reflexivity|].
  split; [exact E|]. split; [exact Hxl|]. split; [exact Hql|].
  intros T r. unfold Transformer_forward. rewrite Hx. lk_cbn.
  rewrite (@repeat_batch _ 1 w N) by reflexivity. lk_cbn.
  rewrite seq_len_sequential, Hl1. fold q0. rewrite E. lk_cbn. unfold checkpoint.
  destruct (TemporalAggregationBlock_forward st tg xl T) as [[tg' y]|]; [|discriminate].
  lk_cbn. destruct (tmul _ _); [|discriminate]. lk_cbn.
  destruct (tadd _ _); [|discriminate]. lk_cbn.
  intros [= <-]. reflexivity.
Qed.

(** *** The path of the query through the layers *)





End Aggregation.

(** ** The temporal correlation *)

Module Temporal.
Import Tensor RT NN Forward Construction ForwardFacts Aggregation.

(** *** [view] and [reshape] with an inferred dimension *)

Lemma infer_shape_nats (l : list nat) (q : nat) :
  existsb (fun z => (z <? -1)%Z) (map Z.of_nat l) = false
  /\ filter (fun z => negb (z =? -1)%Z) (map Z.of_nat l) = map Z.of_nat l
  /\ filter (fun z => (z =? -1)%Z) (map Z.of_nat l) = []
  /\ map Z.to_nat (map Z.of_nat l) = l
  /\ map (fun z => if (z =? -1)%Z then q else Z.to_nat z) (map Z.of_nat l) = l.
Proof.
  induction l as [|a l (H1 & H2 & H3 & H4 & H5)]; [repeat split|].
  assert (E1 : (Z.of_nat a <? -1)%Z = false) by (apply Z.ltb_ge; lia).
  assert (E2 : (Z.of_nat a =? -1)%Z = false) by (apply Z.eqb_neq; lia).
  cbn [map existsb]. rewrite !filter_cons.
  repeat split.
  - rewrite E1, H1. reflexivity.
  - destruct (decide _) as [_|D]; [rewrite H2; reflexivity|].
    exfalso. apply D. rewrite E2. exact I.
  - destruct (decide _) as [D|_]; [|exact H3].
    exfalso. rewrite E2 in D. exact D.
  - rewrite Nat2Z.id, H4. reflexivity.
  - rewrite E2, Nat2Z.id, H5. reflexivity.
Qed.

Lemma infer_shape_lead n m rest :
  numel rest <> 0 -> n = m * numel rest ->
  infer_shape n ((-1)%Z :: map Z.of_nat rest) = Ok (m :: rest).
Proof.
  intros Hp ->. unfold infer_shape.
  destruct (infer_shape_nats rest (m * numel rest / numel rest)) as (H1 & H2 & H3 & H4 & H5).
  cbn [existsb map]. rewrite !filter_cons. cbn [decide_rel]. 
  change ((-1 <? -1)%Z) with false. change ((-1 =? -1)%Z) with true. cbn [orb negb].
  rewrite H1.
  destruct (decide (Is_true false)) as [[]|_]. destruct (decide (Is_true true)) as [_|D];
    [|exfalso; apply D; exact I].
  rewrite H2, H3, H4, H5. cbn [length].
  destruct (Nat.eqb_spec (numel rest) 0) as [E|_]; [contradiction|].
  rewrite Nat.Div0.mod_mul, Nat.eqb_refl, Nat.div_mul by exact Hp. reflexivity.
Qed.

Lemma infer_shape_trail n m front :
  numel front <> 0 -> n = numel front * m ->
  infer_shape n (map Z.of_nat front ++ [(-1)%Z]) = Ok (front ++ [m]).
Proof.
  intros Hp ->. unfold infer_shape.
  destruct (infer_shape_nats front (numel front * m / numel front)) as (H1 & H2 & H3 & H4 & H5).
  rewrite existsb_app, !filter_app, !filter_cons, !filter_nil, map_app, H1, H2, H3.
  cbn [existsb map]. change ((-1 <? -1)%Z) with false. change ((-1 =? -1)%Z) with true.
  cbn [orb negb].
  destruct (decide (Is_true false)) as [[]|_]. destruct (decide (Is_true true)) as [_|D];
    [|exfalso; apply D; exact I].
  rewrite app_nil_r, H4. cbn [app length].
  destruct (Nat.eqb_spec (numel front) 0) as [E|_]; [contradiction|].
  rewrite !map_app, H5. cbn [map]. change ((-1 =? -1)%Z) with true. cbv beta iota.
  rewrite (Nat.mul_comm (numel front) m), Nat.Div0.mod_mul, Nat.eqb_refl, Nat.div_mul by exact Hp.
  reflexivity.
Qed.

Lemma view_lead4 {A} (t : tensor A) m a b c :
  a * b * c <> 0 -> numel (shape t) = m * (a * b * c) ->
  view t [(-1)%Z; Z.of_nat a; Z.of_nat b; Z.of_nat c] = Ok (mkT [m; a; b; c] (data t)).
Proof.
  intros Hp Hn. unfold view.
  change [(-1)%Z; Z.of_nat a; Z.of_nat b; Z.of_nat c] with ((-1)%Z :: map Z.of_nat [a; b; c]).
  rewrite (@infer_shape_lead (numel (shape t)) m [a; b; c]); [reflexivity | cbn; lia | cbn; lia].
Qed.

Lemma view_lead5 {A} (t : tensor A) m a b c d :
  a * b * c * d <> 0 -> numel (shape t) = m * (a * b * c * d) ->
  view t [(-1)%Z; Z.of_nat a; Z.of_nat b; Z.of_nat c; Z.of_nat d]
  = Ok (mkT [m; a; b; c; d] (data t)).
Proof.
  intros Hp Hn. unfold view.
  change [(-1)%Z; Z.of_nat a; Z.of_nat b; Z.of_nat c; Z.of_nat d]
    with ((-1)%Z :: map Z.of_nat [a; b; c; d]).
  rewrite (@infer_shape_lead (numel (shape t)) m [a; b; c; d]); [reflexivity | cbn; lia | cbn; lia].
Qed.

Lemma reshape_trail3 {A} (t : tensor A) a b m :
  a * b <> 0 -> numel (shape t) = a * b * m ->
  reshape t [Z.of_nat a; Z.of_nat b; (-1)%Z] = Ok (mkT [a; b; m] (data t)).
Proof.
  intros Hp Hn. unfold reshape, view.
  change [Z.of_nat a; Z.of_nat b; (-1)%Z] with (map Z.of_nat [a; b] ++ [(-1)%Z]).
  rewrite (@infer_shape_trail (numel (shape t)) m [a; b]); [reflexivity | cbn; lia | cbn; lia].
Qed.

(** Reading a viewed tensor: same row-major offset, same element. *)
Lemma rget_view (t : rtensor) s idx idx0 :
  ravel s idx = ravel (shape t) idx0 -> (mkT s (data t)).[idx] = t.[idx0].
Proof. intros H. unfold rget, tget. cbn [shape data]. rewrite H. reflexivity. Qed.

Lemma permute_ok {A} (d : A) dims (t : tensor A) :
  length dims = length (shape t) -> is_perm dims = true ->
  permute d dims t =
  Ok (tabulate (map (fun a => nth a (shape t) 0) dims)
        (fun idx => tget d t (map (fun a => nth (index_of a dims) idx 0)
                                  (seq 0 (length dims))))).
Proof.
  intros Hl Hp. unfold permute. rewrite Hl, Nat.eqb_refl, Hp. reflexivity.
Qed.

(** [nn.Unfold] with the kernel [(5, 1)], padding [(2, 0)], stride and
    dilation 1 of [UnfoldTemporalWindows(5)]. *)
Lemma unfold_window (x : rtensor) Nv C T P :
  shape x = [Nv; C; T; P] -> 1 <= T -> 1 <= P ->
  unfold 5 1 1 1 1 1 2 0 x =
  Ok (tabulate [Nv; C * 5 * 1; T * P]
        (fun idx =>
           let b := nth 0 idx 0 in let r := nth 1 idx 0 in let l := nth 2 idx 0 in
           let i := ((l / P) * 1 + ((r mod (5 * 1)) / 1) * 1) in
           let j := ((l mod P) * 1 + (r mod 1) * 1) in
           if ((2 <=? i) && (i <? 2 + T) && (0 <=? j) && (j <? 0 + P))
           then x.[[b; r / (5 * 1); i - 2; j - 0]]
           else 0%R)).
Proof.
  intros Hx HT HP. unfold unfold. rewrite Hx.
  replace ((T + 2 * 2 - (1 * (5 - 1) + 1)) / 1 + 1) with T
    by (rewrite Nat.div_1_r; lia).
  replace ((P + 2 * 0 - (1 * (1 - 1) + 1)) / 1 + 1) with P
    by (rewrite Nat.div_1_r; lia).
  replace (1 * (5 - 1) + 1 <=? T + 2 * 2) with true by (symmetry; apply Nat.leb_le; lia).
  replace (1 * (1 - 1) + 1 <=? P + 2 * 0) with true by (symmetry; apply Nat.leb_le; lia).
  reflexivity.
Qed.

Lemma div_mod_block a b n : b < n -> (a * n + b) / n = a /\ (a * n + b) mod n = b.
Proof.
  intros H. split.
  - symmetry. apply (Nat.div_unique _ n a b); lia.
  - symmetry. apply (Nat.mod_unique _ n a b); lia.
Qed.

(** The window of [UnfoldTemporalWindows(5)]: element [(b*T + t, c, k*P + p)]
    of the result is the input of frame [t + k - 2] of the same video,
    zero outside the video. *)
Lemma UnfoldTemporalWindows_forward_ok (xp : rtensor) Nv T C P :
  shape xp = [Nv * T; C; P] -> 1 <= Nv -> 1 <= T -> 1 <= C -> 1 <= P ->
  exists u,
    UnfoldTemporalWindows_forward (UnfoldTemporalWindows_init 5 1 1) xp T = Ok u
    /\ shape u = [Nv * T; C; 5 * P]
    /\ forall b t c k p, b < Nv -> t < T -> c < C -> k < 5 -> p < P ->
         u.[[b * T + t; c; k * P + p]]
         = if (2 <=? t + k) && (t + k <? T + 2)
           then xp.[[b * T + (t + k - 2); c; p]] else 0%R.
Proof.
  intros Hx HN HT HC HP. unfold UnfoldTemporalWindows_forward. rewrite Hx.
  rewrite (@view_lead4 _ xp Nv T C P) by (rewrite ?Hx; cbn; nia). cbn [rbind].
  rewrite permute_ok by reflexivity. cbn [rbind shape map nth length seq index_of Nat.eqb].
  unfold UnfoldTemporalWindows_init. fwd_cbn. unfold Unfold_forward, nn_Unfold. fwd_cbn.
  change ((5 + (5 - 1) * (1 - 1) - 1) / 2) with 2.
  rewrite (@unfold_window _ Nv C T P) by (reflexivity || assumption). cbn [rbind].
  rewrite (@view_lead5 _ _ Nv C 5 T P) by (cbn [shape tabulate numel fold_right]; first [ring | nia]).
  cbn [rbind].
  rewrite (@view_lead5 _ _ Nv C 5 T P) by (cbn [shape tabulate numel fold_right]; first [ring | nia]).
  cbn [rbind data]. 
  rewrite permute_ok by reflexivity. cbn [rbind shape map nth length seq index_of Nat.eqb].
  rewrite (@reshape_trail3 _ _ (Nv * T) C (5 * P))
    by (cbn [shape tabulate numel fold_right]; first [ring | nia]).
  eexists. split; [reflexivity|]. split; [reflexivity|].
  intros b t c k p Hb Ht Hc Hk Hp.
  rewrite (@rget_view _ _ _ [b; t; c; k; p])
    by (cbn [shape tabulate ravel numel fold_right]; ring).
  rewrite rget_tabulate by (cbn; lia). cbn [nth].
  match goal with |- tget 0%R ?a ?i = _ => change (tget 0%R a i) with (rget a i) end.
  rewrite (@rget_view _ _ _ [b; c * 5 + k; t * P + p])
    by (cbn [shape tabulate ravel numel fold_right]; ring).
  rewrite rget_tabulate by (cbn; nia). cbn [nth].
  change (5 * 1) with 5.
  destruct (div_mod_block t Hp) as [E1 E2]. destruct (div_mod_block c Hk) as [E3 E4].
  rewrite E1, E2, E3, E4, Nat.div_1_r, Nat.mod_1_r, !Nat.mul_1_r, Nat.add_0_r, Nat.sub_0_r.
  replace (0 <=? p) with true by (symmetry; apply Nat.leb_le; lia).
  replace (p <? 0 + P) with true by (symmetry; apply Nat.ltb_lt; lia).
  rewrite !andb_true_r, (Nat.add_comm 2 T).
  destruct ((2 <=? t + k) && (t + k <? T + 2)) eqn:Ew; [|reflexivity].
  apply andb_true_iff in Ew as [Ew1 Ew2].
  apply Nat.leb_le in Ew1. apply Nat.ltb_lt in Ew2.
  rewrite rget_tabulate by (cbn; lia). cbn [nth].
  match goal with |- tget 0%R ?a ?i = _ => change (tget 0%R a i) with (rget a i) end.
  apply rget_view. rewrite Hx. cbn [ravel numel fold_right]. ring.
Qed.

(** *** Correlation_Module *)

Lemma bi_lt n i : i < n -> bi n i = i.
Proof. intros H. unfold bi. destruct (Nat.eqb_spec n 1); lia. Qed.

Lemma bdim_same n : bdim n n = Some n.
Proof. unfold bdim. rewrite Nat.eqb_refl. reflexivity. Qed.

(** [Correlation_Module.forward]: the element [(l, a, d)] of the result
    is the sum over the positions [o] of
    [(sigmoid(<x[l, a], upfold[o, a]> / sqrt(D)) - 0.5) * upfold[o, a, d]]. *)
Lemma Correlation_Module_forward_ok (q up : rtensor) L O N D :
  shape q = [L; N; D] -> shape up = [O; N; D] ->
  exists f,
    Correlation_Module_forward q up = Ok f
    /\ shape f = [L; N; D]
    /\ forall l a d, l < L -> a < N -> d < D ->
         f.[[l; a; d]]
         = rsum O (fun o =>
             (sigmoid (rsum D (fun j => q.[[l; a; j]] * up.[[o; a; j]]) / sqrt (INR D))
              - 1 / 2) * up.[[o; a; d]])%R.
Proof.
  intros Hq Hu. unfold Correlation_Module_forward, einsum_lnd_ond_lon. rewrite Hq, Hu.
  rewrite !bdim_same. cbn [of_option rbind].
  unfold einsum_lon_ond_lnd, tsub_scalar, tsigmoid, tdiv_scalar, tmap.
  cbn [shape tabulate]. rewrite Hu, !bdim_same. cbn [of_option rbind].
  eexists. split; [reflexivity|]. split; [reflexivity|].
  intros l a d Hl Ha Hd. rewrite rget_tabulate by (cbn; lia). cbn [nth].
  apply rsum_ext. intros o Ho. rewrite !bi_lt by assumption.
  f_equal. change (tget 0%R) with rget.
  rewrite !rget_tabulate by (cbn; lia). cbn [nth].
  do 3 f_equal. apply rsum_ext. intros j Hj. rewrite !bi_lt by assumption. reflexivity.
Qed.

(** *** TemporalAggregationBlock *)

(** The neighbourhood of frame [a = b*T + t] in the normalised tokens
    [n]: position [o = k*P + p] holds patch token [p] of frame
    [t + k - 2] of the same video, [k = 0..4], and zero where that
    frame is outside the video. *)
Definition window (T P : nat) (n : rtensor) (o a d : nat) : R :=
  let k := o / P in
  let p := o mod P in
  let b := a / T in
  let t := a mod T in
  if (2 <=? t + k) && (t + k <? T + 2)
  then n.[[1 + p; b * T + (t + k - 2); d]]
  else 0%R.

(** The correlation of the cls token of frame [a] with its
    neighbourhood. *)
Definition correlation (T P D : nat) (n : rtensor) (a d : nat) : R :=
  rsum (5 * P) (fun o =>
    (sigmoid (rsum D (fun j => n.[[0%nat; a; j]] * window T P n o a j) / sqrt (INR D)) - 1 / 2)
    * window T P n o a d)%R.

Lemma TemporalAggregationBlock_attention_ok w h st tg (n : rtensor) P Nv T :
  built (TemporalAggregationBlock_init w h None) tg ->
  shape n = [S P; Nv * T; w] -> 1 <= P -> 1 <= Nv -> 1 <= T -> 1 <= w ->
  exists f,
    TemporalAggregationBlock_attention st tg n T = Ok (tg, f)
    /\ shape f = [1; Nv * T; w]
    /\ forall a d, a < Nv * T -> d < w -> f.[[0; a; d]] = correlation T P w n a d.
Proof.
  intros (s & s' & H) Hn HP HN HT Hw. ctor_inv H.
  unfold TemporalAggregationBlock_attention. lk_cbn.
  rewrite (slice_tail Hn). lk_cbn.
  rewrite permute_ok by reflexivity. cbn [rbind shape tabulate map nth length seq index_of Nat.eqb].
  match goal with
  | |- context [UnfoldTemporalWindows_forward _ ?xp T] =>
      destruct (@UnfoldTemporalWindows_forward_ok xp Nv T w P eq_refl HN HT Hw HP)
        as (u & Eu & Hu & Hval)
  end.
  unfold Correlation_Module_init at 1. rewrite Eu. lk_cbn.
  rewrite permute_ok by (rewrite ?Hu; reflexivity).
  rewrite Hu. cbn [rbind shape tabulate map nth length seq index_of Nat.eqb].
  rewrite (slice_head Hn). lk_cbn.
  match goal with
  | |- context [Correlation_Module_forward ?q ?up] =>
      destruct (@Correlation_Module_forward_ok q up 1 (5 * P) (Nv * T) w eq_refl eq_refl)
        as (f & Ef & Hf & Hfv); rewrite Ef
  end.
  lk_cbn. exists f. split; [reflexivity|]. split; [exact Hf|].
  intros a d Ha Hd. rewrite (Hfv 0 a d) by lia. unfold correlation.
  assert (W : forall o j, o < 5 * P -> j < w ->
            (tabulate [5 * P; Nv * T; w]
               (fun idx => tget 0%R u [nth 1 idx 0; nth 2 idx 0; nth 0 idx 0])).[[o; a; j]]
            = window T P n o a j).
  { intros o j Ho Hj. rewrite rget_tabulate by (cbn; lia). cbn [nth].
    change (tget 0%R) with rget.
    assert (Ea : a = a / T * T + a mod T) by (rewrite Nat.mul_comm; apply Nat.div_mod_eq).
    assert (Eo : o = o / P * P + o mod P) by (rewrite Nat.mul_comm; apply Nat.div_mod_eq).
    assert (Hb : a / T < Nv) by (apply Nat.Div0.div_lt_upper_bound; lia).
    assert (Ht : a mod T < T) by (apply Nat.mod_upper_bound; lia).
    assert (Hk : o / P < 5) by (apply Nat.Div0.div_lt_upper_bound; lia).
    assert (Hp : o mod P < P) by (apply Nat.mod_upper_bound; lia).
    transitivity (u.[[a / T * T + a mod T; j; o / P * P + o mod P]]);
      [rewrite <- Ea, <- Eo; reflexivity|].
    rewrite (Hval _ _ _ _ _ Hb Ht Hj Hk Hp). unfold window.
    destruct ((2 <=? a mod T + o / P) && (a mod T + o / P <? T + 2)) eqn:Ew; [|reflexivity].
    apply andb_true_iff in Ew as [Ew1 Ew2].
    apply Nat.leb_le in Ew1. apply Nat.ltb_lt in Ew2.
    rewrite rget_tabulate by (cbn; nia). cbn [nth]. change (tget 0%R) with rget.
    rewrite rget_tabulate by (cbn; nia). reflexivity. }
  apply rsum_ext. intros o Ho. rewrite (W o d Ho Hd). do 4 f_equal.
  apply rsum_ext. intros j Hj. rewrite (W o j Ho Hj), rget_tabulate by (cbn; lia).
  reflexivity.
Qed.

Lemma TemporalAggregationBlock_forward_ok w h st tg (x : rtensor) P Nv T :
  built (TemporalAggregationBlock_init w h None) tg ->
  shape x = [S P; Nv * T; w] -> 1 <= P -> 1 <= Nv -> 1 <= T -> 1 <= w ->
  exists n f,
    (ln_1 <- child tg "ln_1" ;; LayerNorm_forward st ln_1 x) = Ok n
    /\ shape n = [S P; Nv * T; w]
    /\ TemporalAggregationBlock_forward st tg x T = Ok (tg, f)
    /\ shape f = [1; Nv * T; w]
    /\ forall a d, a < Nv * T -> d < w -> f.[[0; a; d]] = correlation T P w n a d.
Proof.
  intros Hb Hx HP HN HT Hw. pose proof Hb as (s & s' & H). ctor_inv H.
  unfold TemporalAggregationBlock_forward. lk_cbn. unfold LayerNorm_forward. lk_cbn.
  erewrite layer_norm_ok by shape_tac. lk_cbn. rewrite Hx.
  match goal with
  | |- context [TemporalAggregationBlock_attention st ?tg' ?n T] =>
      destruct (@TemporalAggregationBlock_attention_ok w h st tg' n P Nv T Hb eq_refl
                  HP HN HT Hw) as (f & Ef & Hf & Hv)
  end.
  eexists. exists f. split; [reflexivity|]. split; [reflexivity|].
  split; [exact Ef|]. split; [exact Hf|]. exact Hv.
Qed.

(** *** Broadcast products and sums of [Transformer.forward] *)

Lemma tmul_scalar (f c : rtensor) N D :
  shape f = [1; N; D] -> shape c = [1] ->
  exists y,
    tmul f c = Ok y /\ shape y = [1; N; D]
    /\ forall a d, a < N -> d < D -> y.[[0; a; d]] = (f.[[0%nat; a; d]] * c.[[0%nat]])%R.
Proof.
  intros Hf Hc. unfold tmul, map2b, broadcast_shapes. rewrite Hf, Hc.
  cbn [rev app bshape_rev].
  replace (if D =? 1 then option_map (cons D) (Some [N; 1])
           else if D =? 1 then option_map (cons 1) (Some [N; 1])
                else if 1 =? 1 then option_map (cons D) (Some [N; 1]) else None)
    with (Some [D; N; 1]) by (destruct (D =? 1); reflexivity).
  cbn [option_map rev app of_option rbind].
  eexists. split; [reflexivity|]. split; [reflexivity|].
  intros a d Ha Hd. rewrite rget_tabulate by (cbn; lia).
  rewrite (@bidx_same [1; N; D] [0; a; d]) by (cbn; lia). reflexivity.
Qed.

Lemma tadd_tokens (x t : rtensor) L N D :
  shape x = [L; N; D] -> shape t = [1; N; D] ->
  exists y,
    tadd x t = Ok y /\ shape y = [L; N; D]
    /\ forall l a d, l < L -> a < N -> d < D ->
         y.[[l; a; d]] = (x.[[l; a; d]] + t.[[0%nat; a; d]])%R.
Proof.
  intros Hx Ht. unfold tadd, map2b, broadcast_shapes. rewrite Hx, Ht.
  cbn [rev app bshape_rev]. rewrite !Nat.eqb_refl.
  destruct (L =? 1);
    cbn [option_map rev app of_option rbind Nat.eqb];
    (eexists; split; [reflexivity|]; split; [reflexivity|];
     intros l a d Hl Ha Hd; rewrite rget_tabulate by (cbn; lia);
     rewrite (@bidx_same [L; N; D] [l; a; d]) by (cbn; lia);
     unfold bidx; cbn [length Nat.sub skipn zip_with Nat.eqb];
     fold (bi N a); fold (bi D d); rewrite !bi_lt by assumption; reflexivity).
Qed.

(** *** The temporal path of [Transformer.forward] *)

Lemma Transformer_forward_ok w l h st tr (x : rtensor) P Nv T :
  built (Transformer_init w l h None) tr ->
  shape x = [S P; Nv * T; w] -> 1 <= P -> 1 <= Nv -> 1 <= T -> 1 <= w ->
  exists tg taw q0 xl ql n f xo,
    child tr "taggblocks" = Ok tg
    /\ get_param tr "temporal_ada_weight" = Ok taw /\ p_shape taw = [1]
    /\ for_each (seq 0 l) (Transformer_step st) (tr, x, q0) = Ok (tr, xl, ql)
    /\ shape ql = [1; Nv * T; w]
    /\ (ln_1 <- child tg "ln_1" ;; LayerNorm_forward st ln_1 xl) = Ok n
    /\ TemporalAggregationBlock_forward st tg xl T = Ok (tg, f)
    /\ (forall a d, a < Nv * T -> d < w -> f.[[0; a; d]] = correlation T P w n a d)
    /\ Transformer_forward st tr x T = Ok (tr, (xo, ql))
    /\ shape xo = [S P; Nv * T; w]
    /\ forall i a d, i < S P -> a < Nv * T -> d < w ->
         xo.[[i; a; d]] = (xl.[[i; a; d]] + f.[[0%nat; a; d]] * (tensor_of st taw).[[0%nat]])%R.
Proof.
  intros Hb Hx HP HN HT Hw.
  destruct (@Transformer_forward_query w l h st tr x (S P) (Nv * T) Hb Hx)
    as (qp & q0 & xl & ql & Hqp & Hqs & Hq0 & Hloop & Hxl & Hql & _).
  pose proof Hb as (s & s' & H).
  apply Transformer_init_inv in H
    as (rbs & abs & tg & qi & taw & -> & Hl1 & Hl2 & Hrbs & Habs & Htg & _).
  destruct (@TemporalAggregationBlock_forward_ok w h st tg xl P Nv T Htg Hxl HP HN HT Hw)
    as (n & f & Hn & Hns & Hf & Hfs & Hfv).
  destruct (@tmul_scalar f (tensor_of st (mkParam taw [1] true)) (Nv * T) w Hfs eq_refl)
    as (y & Ey & Hys & Hyv).
  destruct (@tadd_tokens xl y (S P) (Nv * T) w Hxl Hys) as (xo & Exo & Hxos & Hxov).
  exists tg, (mkParam taw [1] true), q0, xl, ql, n, f, xo.
  split; [reflexivity|]. split; [reflexivity|]. split; [reflexivity|].
  split; [exact Hloop|]. split; [exact Hql|]. split; [exact Hn|]. split; [exact Hf|].
  split; [exact Hfv|].
  split; [|split; [exact Hxos|]].
  - unfold Transformer_forward. rewrite Hx. lk_cbn. lk_cbn_in Hqp. injection Hqp as <-.
    rewrite Hq0. lk_cbn. rewrite seq_len_sequential, Hl1, Hloop. lk_cbn. unfold checkpoint.
    rewrite Hf. lk_cbn. rewrite Ey. lk_cbn. rewrite Exo. reflexivity.
  - intros i a d Hi Ha Hd. rewrite (Hxov i a d Hi Ha Hd), (Hyv a d Ha Hd). reflexivity.
Qed.





End Temporal.

(** ** The shape contract of the forward pass *)

Module Shapes.
Import Tensor RT NN Forward Construction ForwardFacts Aggregation Temporal.

(** *** The [torch] functions of [VisionTransformer.forward] *)

Lemma conv2d_ok (x wt : rtensor) s n c h wd o k :
  shape x = [n; c; h; wd] -> shape wt = [o; c; k; k] -> 0 < s -> k <= h -> k <= wd ->
  exists F, conv2d s x wt = Ok (tabulate [n; o; (h - k) / s + 1; (wd - k) / s + 1] F).
Proof.
  intros Hx Hw Hs Hh Hwd. unfold conv2d. rewrite Hx, Hw, Nat.eqb_refl.
  replace (0 <? s) with true by (symmetry; apply Nat.ltb_lt; exact Hs).
  replace (k <=? h) with true by (symmetry; apply Nat.leb_le; exact Hh).
  replace (k <=? wd) with true by (symmetry; apply Nat.leb_le; exact Hwd).
  eexists. reflexivity.
Qed.

Lemma map2b_ok (f : R -> R -> R) (a b : rtensor) s :
  broadcast_shapes (shape a) (shape b) = Some s ->
  map2b 0%R f a b
  = Ok (tabulate s (fun idx => f (tget 0%R a (bidx (shape a) idx))
                                 (tget 0%R b (bidx (shape b) idx)))).
Proof. intros H. unfold map2b. rewrite H. reflexivity. Qed.

Lemma broadcast_class N w : broadcast_shapes [w] [N; 1; w] = Some [N; 1; w].
Proof. unfold broadcast_shapes. cbn [rev app bshape_rev]. rewrite Nat.eqb_refl. reflexivity. Qed.

Lemma broadcast_positions N L w : broadcast_shapes [N; L; w] [L; w] = Some [N; L; w].
Proof. unfold broadcast_shapes. cbn [rev app bshape_rev]. rewrite !Nat.eqb_refl. reflexivity. Qed.

Lemma broadcast_scalar s : broadcast_shapes s [] = Some s.
Proof.
  unfold broadcast_shapes. cbn [rev]. destruct (rev s) eqn:E.
  - cbn. rewrite <- (rev_involutive s), E. reflexivity.
  - cbn [bshape_rev option_map]. rewrite <- E, rev_involutive. reflexivity.
Qed.

Lemma cat1_3 (c x : rtensor) N G w :
  shape c = [N; 1; w] -> shape x = [N; G; w] ->
  exists F, cat 0%R 1 c x = Ok (tabulate [N; S G; w] F).
Proof.
  intros Hc Hx. unfold cat. rewrite Hc, Hx.
  cbn [length Nat.ltb Nat.leb set_nth firstn skipn app nth].
  rewrite shape_eqb_refl. eexists. reflexivity.
Qed.

Lemma matmul_ok (a b : rtensor) n k m :
  shape a = [n; k] -> shape b = [k; m] ->
  matmul a b
  = Ok (tabulate [n; m]
          (fun idx => rsum k (fun j => a.[[nth 0 idx 0%nat; j]] * b.[[j; nth 1 idx 0%nat]])%R)).
Proof. intros Ha Hb. unfold matmul. rewrite Ha, Hb, Nat.eqb_refl. reflexivity. Qed.

(** *** The token sequence *)

Lemma VisionTransformer_tokens_ok res p w l h o s vt s' st (x : rtensor) g N :
  VisionTransformer_init res p w l h o s = Ok (vt, s') ->
  res = g * p -> 1 <= g -> 1 <= N -> shape x = [N; 3; res; res] ->
  exists F, VisionTransformer_tokens st vt x = Ok (tabulate [(res / p) ^ 2 + 1; N; w] F).
Proof.
  intros H Hres Hg HN Hx.
  apply VisionTransformer_init_inv in H
    as (i0 & i1 & i2 & i3 & i4 & i5 & i6 & i7 & T & sT & sT' & s1 & s2
        & -> & HT & _ & _ & Hw & Hp).
  assert (Eg : res / p = g) by (subst res; apply Nat.div_mul; exact Hp).
  rewrite !Eg. replace (g ^ 2 + 1) with (S (g * g)) by (rewrite Nat.pow_2_r; lia).
  unfold VisionTransformer_tokens. lk_cbn. unfold Conv2d_forward, Conv2d_at. lk_cbn.
  cbn [Nat.eqb guard rbind].
  destruct (@conv2d_ok x (tensor_of st (mkParam i0 [w; 3; p; p] true)) p N 3 res res w p
              Hx eq_refl ltac:(lia) ltac:(nia) ltac:(nia)) as [F1 E1].
  rewrite E1. cbn [rbind].
  replace ((res - p) / p + 1) with g
    by (subst res; replace (g * p - p) with ((g - 1) * p) by nia;
        rewrite Nat.div_mul by exact Hp; lia).
  unfold size. cbn [shape tabulate nth_error of_option rbind].
  rewrite (@reshape_trail3 _ _ N w (g * g))
    by (cbn [shape tabulate numel fold_right]; first [ring | nia]).
  cbn [rbind].
  rewrite permute_ok by reflexivity.
  cbn [rbind shape tabulate map nth length seq index_of Nat.eqb nth_error of_option last].
  unfold tadd. rewrite (@map2b_ok _ _ _ [N; 1; w]) by apply broadcast_class. cbn [rbind].
  match goal with
  | |- context [cat 0%R 1 ?c ?y] =>
      destruct (@cat1_3 c y N (g * g) w eq_refl eq_refl) as [F2 E2]; rewrite E2
  end.
  cbn [rbind].
  rewrite (@map2b_ok _ _ _ [N; S (g * g); w]) by apply broadcast_positions. cbn [rbind].
  unfold LayerNorm_forward, LayerNorm_at. lk_cbn.
  erewrite layer_norm_ok by shape_tac. cbn [rbind].
  rewrite permute_ok by reflexivity.
  cbn [rbind shape tabulate map nth length seq index_of Nat.eqb].
  eexists. reflexivity.
Qed.

(** *** The forward pass *)

Ltac select_cbn :=
  unfold select;
  cbn [shape tabulate tensor_of p_shape length nth Nat.ltb Nat.leb guard andb rbind
       remove_nth insert_nth firstn skipn app].

Lemma VisionTransformer_forward_ok res p w l h o s vt s' st (x : rtensor) g Nv T :
  VisionTransformer_init res p w l h o s = Ok (vt, s') ->
  res = g * p -> 1 <= g -> 1 <= Nv -> 1 <= T -> shape x = [Nv * T; 3; res; res] ->
  exists tokens tr xo ql pa pp a b y,
    VisionTransformer_tokens st vt x = Ok tokens
    /\ shape tokens = [(res / p) ^ 2 + 1; Nv * T; w]
    /\ child vt "transformer" = Ok tr
    /\ Transformer_forward st tr tokens T = Ok (tr, (xo, ql))
    /\ get_param vt "ada_weight" = Ok pa /\ get_param vt "proj" = Ok pp
    /\ (xp <- permute 0%R [1; 0; 2] xo ;; x0 <- select 0%R 1 0 xp ;;
        ln_post <- child vt "ln_post" ;; LayerNorm_forward st ln_post x0) = Ok a
    /\ (nc <- permute 0%R [1; 0; 2] ql ;; ln_post_cls <- child vt "ln_post_cls" ;;
        nc <- LayerNorm_forward st ln_post_cls nc ;; select 0%R 1 0 nc) = Ok b
    /\ VisionTransformer_forward st vt x T = Ok (vt, y)
    /\ shape y = [Nv * T; o]
    /\ forall i j, i < Nv * T -> j < o ->
         y.[[i; j]]
         = rsum w (fun k =>
             (a.[[i; k]] * (tensor_of st pa).[[0%nat]]
              + b.[[i; k]] * (tensor_of st pa).[[1%nat]]) * (tensor_of st pp).[[k; j]])%R.
Proof.
  intros H Hres Hg HN HT Hx.
  destruct (@VisionTransformer_tokens_ok res p w l h o s vt s' st x g (Nv * T) H Hres Hg
              ltac:(nia) Hx) as [Ft Et].
  apply VisionTransformer_init_inv in H
    as (i0 & i1 & i2 & i3 & i4 & i5 & i6 & i7 & tr & sT & sT' & s1 & s2
        & -> & Htr & _ & _ & Hw & Hp).
  assert (Eg : res / p = g) by (subst res; apply Nat.div_mul; exact Hp).
  assert (Htok : [(res / p) ^ 2 + 1; Nv * T; w] = [S (g * g); Nv * T; w])
    by (rewrite Eg, Nat.pow_2_r; f_equal; lia).
  assert (Hb : built (Transformer_init w l h None) tr) by (exists sT, sT'; exact Htr).
  destruct (@Transformer_forward_ok w l h st tr (tabulate _ Ft) (g * g) Nv T Hb Htok
              ltac:(nia) HN HT ltac:(lia))
    as (tg & taw & q0 & xl & ql & n & f & xo
        & _ & _ & _ & _ & Hql & _ & _ & _ & Hfw & Hxo & _).
  match goal with
  | |- context [VisionTransformer_forward st ?m x T] => remember m as V eqn:EV
  end.
  eassert (Ha : (xp <- permute 0%R [1; 0; 2] xo ;; x0 <- select 0%R 1 0 xp ;;
                 ln_post <- child V "ln_post" ;; LayerNorm_forward st ln_post x0) = Ok _).
  { subst V. rewrite permute_ok by (rewrite ?Hxo; reflexivity). rewrite Hxo.
    cbn [rbind map nth length seq index_of Nat.eqb]. select_cbn. lk_cbn.
    unfold LayerNorm_forward, LayerNorm_at. lk_cbn.
    erewrite layer_norm_ok by (reflexivity || apply last_is_2). reflexivity. }
  eassert (Hbq : (nc <- permute 0%R [1; 0; 2] ql ;; ln_post_cls <- child V "ln_post_cls" ;;
                  nc <- LayerNorm_forward st ln_post_cls nc ;; select 0%R 1 0 nc) = Ok _).
  { subst V. rewrite permute_ok by (rewrite ?Hql; reflexivity). rewrite Hql.
    cbn [rbind map nth length seq index_of Nat.eqb]. lk_cbn.
    unfold LayerNorm_forward, LayerNorm_at. lk_cbn.
    erewrite layer_norm_ok by (reflexivity || apply last_is_3). cbn [rbind].
    select_cbn. reflexivity. }
  do 4 eexists. exists (mkParam i7 [2] true), (mkParam i6 [w; o] true). do 3 eexists.
  split; [exact Et|]. split; [reflexivity|]. split; [subst V; reflexivity|].
  split; [exact Hfw|]. split; [subst V; reflexivity|]. split; [subst V; reflexivity|].
  split; [exact Ha|]. split; [exact Hbq|].
  subst V. unfold VisionTransformer_forward. rewrite Et. lk_cbn. rewrite Hfw. lk_cbn.
  rewrite permute_ok by (rewrite ?Hxo; reflexivity). rewrite Hxo.
  cbn [rbind map nth length seq index_of Nat.eqb]. select_cbn. lk_cbn.
  unfold LayerNorm_forward, LayerNorm_at. lk_cbn.
  erewrite layer_norm_ok by (reflexivity || apply last_is_2). cbn [rbind].
  select_cbn. unfold tmul.
  rewrite (@map2b_ok _ _ _ [Nv * T; w]) by apply broadcast_scalar. cbn [rbind].
  rewrite permute_ok by (rewrite ?Hql; reflexivity). rewrite Hql.
  cbn [rbind map nth length seq index_of Nat.eqb]. lk_cbn.
  erewrite layer_norm_ok by (reflexivity || apply last_is_3). cbn [rbind].
  select_cbn.
  rewrite (@map2b_ok _ _ _ [Nv * T; w]) by apply broadcast_scalar. cbn [rbind].
  rewrite tadd_same by reflexivity. cbn [rbind].
  erewrite matmul_ok by reflexivity.
  split; [reflexivity|]. split; [reflexivity|].
  intros i j Hi Hj. rewrite rget_tabulate by (cbn; lia). cbn [nth].
  apply rsum_ext. intros k Hk. f_equal.
  rewrite rget_tabulate by (cbn; lia).
  cbn [shape tabulate]. change (tget 0%R) with rget.
  repeat first [ rewrite (@rget_tabulate [Nv * T; w] _ [i; k]) by (cbn; lia)
               | rewrite (@bidx_same [Nv * T; w] [i; k]) by (cbn; lia) ].
  unfold bidx. cbn [zip_with].
  repeat (rewrite (@rget_tabulate [] _ []) by exact I).
  reflexivity.
Qed.

(** *** A batch that is not a whole number of videos *)

Lemma infer_shape_indivisible n rest :
  numel rest <> 0 -> n mod numel rest <> 0 ->
  infer_shape n ((-1)%Z :: map Z.of_nat rest)
  = Raise (RuntimeError "shape is invalid for input size").
Proof.
  intros Hp Hm. unfold infer_shape.
  destruct (infer_shape_nats rest (n / numel rest)) as (H1 & H2 & H3 & H4 & H5).
  cbn [existsb map]. rewrite !filter_cons. cbn [decide_rel].
  change ((-1 <? -1)%Z) with false. change ((-1 =? -1)%Z) with true. cbn [orb negb].
  rewrite H1.
  destruct (decide (Is_true false)) as [[]|_]. destruct (decide (Is_true true)) as [_|D];
    [|exfalso; apply D; exact I].
  rewrite H2, H3, H4. cbn [length].
  destruct (Nat.eqb_spec (numel rest) 0) as [E|_]; [contradiction|].
  destruct (Nat.eqb_spec (n mod numel rest) 0) as [E|_]; [contradiction|]. reflexivity.
Qed.

Lemma TemporalAggregationBlock_forward_indivisible w h st tg (x : rtensor) P N T :
  built (TemporalAggregationBlock_init w h None) tg ->
  shape x = [S P; N; w] -> 1 <= P -> 1 <= w -> 1 <= T -> N mod T <> 0 ->
  TemporalAggregationBlock_forward st tg x T
  = Raise (RuntimeError "shape is invalid for input size").
Proof.
  intros (s & s' & H) Hx HP Hw HT Hm. ctor_inv H.
  unfold TemporalAggregationBlock_forward. lk_cbn. unfold LayerNorm_forward. lk_cbn.
  erewrite layer_norm_ok by shape_tac. lk_cbn. rewrite Hx.
  unfold TemporalAggregationBlock_attention. lk_cbn.
  rewrite (@slice_tail _ P N w) by reflexivity. lk_cbn.
  rewrite permute_ok by reflexivity.
  cbn [rbind shape tabulate map nth length seq index_of Nat.eqb].
  unfold UnfoldTemporalWindows_forward. cbn [shape tabulate]. unfold view.
  change [(-1)%Z; Z.of_nat T; Z.of_nat w; Z.of_nat P]
    with ((-1)%Z :: map Z.of_nat [T; w; P]).
  rewrite infer_shape_indivisible; [reflexivity | cbn; nia |].
  cbn [shape tabulate numel fold_right].
  replace (N * (w * (P * 1))) with (N * (w * P)) by ring.
  replace (T * (w * (P * 1))) with (T * (w * P)) by ring.
  rewrite Nat.Div0.mul_mod_distr_r. nia.
Qed.

Lemma VisionTransformer_forward_indivisible res p w l h o s vt s' st (x : rtensor) g N T :
  VisionTransformer_init res p w l h o s = Ok (vt, s') ->
  res = g * p -> 1 <= g -> 1 <= N -> 1 <= T -> N mod T <> 0 ->
  shape x = [N; 3; res; res] ->
  VisionTransformer_forward st vt x T
  = Raise (RuntimeError "shape is invalid for input size").
Proof.
  intros H Hres Hg HN HT Hm Hx.
  destruct (@VisionTransformer_tokens_ok res p w l h o s vt s' st x g N H Hres Hg HN Hx)
    as [Ft Et].
  apply VisionTransformer_init_inv in H
    as (i0 & i1 & i2 & i3 & i4 & i5 & i6 & i7 & tr & sT & sT' & s1 & s2
        & -> & Htr & _ & _ & Hw & Hp).
  assert (Eg : res / p = g) by (subst res; apply Nat.div_mul; exact Hp).
  assert (Htok : [(res / p) ^ 2 + 1; N; w] = [S (g * g); N; w])
    by (rewrite Eg, Nat.pow_2_r; f_equal; lia).
  assert (Hb : built (Transformer_init w l h None) tr) by (exists sT, sT'; exact Htr).
  unfold VisionTransformer_forward. rewrite Et, Htok. lk_cbn.
  destruct (@Transformer_forward_query w l h st tr (tabulate [S (g * g); N; w] Ft)
              (S (g * g)) N Hb eq_refl)
    as (qp & q0 & xl & ql & Hqp & Hqs & Hq0 & Hloop & Hxl & Hql & _).
  apply Transformer_init_inv in Htr
    as (rbs & abs & tg & qi & taw & -> & Hl1 & Hl2 & Hrbs & Habs & Htg & _).
  unfold Transformer_forward. cbn [shape tabulate]. lk_cbn.
  lk_cbn_in Hqp. injection Hqp as <-. rewrite Hq0. lk_cbn.
  rewrite seq_len_sequential, Hl1, Hloop. lk_cbn. unfold checkpoint.
  rewrite (@TemporalAggregationBlock_forward_indivisible w h st tg xl (g * g) N T Htg Hxl)
    by (assumption || nia).
  reflexivity.
Qed.

(** *** The shape contract *)

(** What C6 states of [VisionTransformer.forward] on a batch [x] of [n]
    images: the token sequence entering the transformer has
    [tokens] tokens of width [w] in LND layout; the output is
    [ada_weight[0] * ln_post(x[:, 0, :])
     + ada_weight[1] * ln_post_cls(query)[:, 0, :]], projected by
    [proj], of shape [(n, o)]. *)
Definition forward_contract (st : store) (vt : module) (x : rtensor) (T n tokens w o : nat)
  : Prop :=
  exists toks tr xo ql pa pp a b y,
    VisionTransformer_tokens st vt x = Ok toks
    /\ shape toks = [tokens; n; w]
    /\ child vt "transformer" = Ok tr
    /\ Transformer_forward st tr toks T = Ok (tr, (xo, ql))
    /\ get_param vt "ada_weight" = Ok pa /\ get_param vt "proj" = Ok pp
    /\ (xp <- permute 0%R [1; 0; 2] xo ;; x0 <- select 0%R 1 0 xp ;;
        ln_post <- child vt "ln_post" ;; LayerNorm_forward st ln_post x0) = Ok a
    /\ (nc <- permute 0%R [1; 0; 2] ql ;; ln_post_cls <- child vt "ln_post_cls" ;;
        nc <- LayerNorm_forward st ln_post_cls nc ;; select 0%R 1 0 nc) = Ok b
    /\ VisionTransformer_forward st vt x T = Ok (vt, y)
    /\ shape y = [n; o]
    /\ forall i j, i < n -> j < o ->
         y.[[i; j]]
         = rsum w (fun k =>
             (a.[[i; k]] * (tensor_of st pa).[[0%nat]]
              + b.[[i; k]] * (tensor_of st pa).[[1%nat]]) * (tensor_of st pp).[[k; j]])%R.

(** C6 (amended). For an input batch of shape
    [(N, 3, input_resolution, input_resolution)] with
    [input_resolution] a positive multiple of [patch_size], and a
    number of frames [T >= 1] per video of which [N] is a positive
    multiple, the token sequence entering the transformer has
    [(input_resolution / patch_size)^2 + 1] tokens of width [width] in
    LND layout, and the output, the weighted sum of [ln_post] of the cls
    token and [ln_post_cls] of the aggregated query projected by
    [proj], has shape [(N, output_dim)]. *)
Theorem forward_shape_contract res p w l h o s vt s' st (x : rtensor) g Nv T :
  VisionTransformer_init res p w l h o s = Ok (vt, s') ->
  res = g * p -> 1 <= g -> 1 <= Nv -> 1 <= T -> shape x = [Nv * T; 3; res; res] ->
  forward_contract st vt x T (Nv * T) ((res / p) ^ 2 + 1) w o.
Proof.
  intros H Hres Hg HN HT Hx.
  exact (@VisionTransformer_forward_ok res p w l h o s vt s' st x g Nv T H Hres Hg HN HT Hx).
Qed.

Lemma forward_shape_contract_witness :
  exists vt s',
    VisionTransformer_init 2 1 4 1 1 3 cstate0 = Ok (vt, s')
    /\ forward_contract (values s') vt (zeros [2; 3; 2; 2]) 2 2 5 4 3.
Proof.
  destruct (VisionTransformer_init 2 1 4 1 1 3 cstate0) as [[vt s']|e] eqn:E;
    [|vm_compute in E; discriminate E].
  exists vt, s'. split; [reflexivity|].
  exact (@forward_shape_contract 2 1 4 1 1 3 cstate0 vt s' (values s') (zeros [2; 3; 2; 2])
           2 1 2 E eq_refl ltac:(lia) ltac:(lia) ltac:(lia) eq_refl).
Defined.

(** C6 as stated fails on a batch that is not a whole number of videos:
    one image of the right size with [T = 2] frames per video makes
    [view(-1, T, C, P)] in the temporal block raise, and the forward
    pass returns nothing. *)
Lemma forward_raises_on_a_partial_video :
  match VisionTransformer_init 2 1 4 1 1 3 cstate0 with
  | Ok (vt, s') =>
      VisionTransformer_forward (values s') vt (zeros [1; 3; 2; 2]) 2
      = Raise (RuntimeError "shape is invalid for input size")
  | Raise _ => False
  end.
Proof.
  destruct (VisionTransformer_init 2 1 4 1 1 3 cstate0) as [[vt s']|e] eqn:E;
    [|vm_compute in E; discriminate E].
  apply (@VisionTransformer_forward_indivisible 2 1 4 1 1 3 cstate0 vt s' (values s')
           (zeros [1; 3; 2; 2]) 2 1 2 E eq_refl); try lia; [|reflexivity].
  cbn. lia.
Qed.

End Shapes.
